(** * MD5 (RFC 1321) incremental engine of [FinalProject/md5.cpp]

    A shallow embedding of the [MD5] class: its state, [reset], [update],
    [finalize], the one-shot [digest] helpers, the [hex] formatter and the
    private [transform], [read_le32] and [write_le32].

    Conventions.
    - [uint32_t] and [uint64_t] values are [Z] with the wrap-around written
      out ([u32], [u64]); [std::size_t] is taken to be 64 bits wide.
    - [uint8_t] is [Byte.byte]; a [(pointer, length)] argument is the list of
      the bytes it designates, advancing the pointer is [skipn].
    - The member array [buffer_] is a list of bytes that keeps whatever was
      last written to it: [reset] does not clear it and the constructor does
      not initialise it. *)

From Stdlib Require Import Ascii String.
From Stdlib Require Import ZArith List Lia Bool.
From Stdlib.Strings Require Import Byte.
Import ListNotations.

Local Open Scope Z_scope.

(** ** Machine integers *)

Definition u32 (x : Z) : Z := x mod 2 ^ 32.
Definition u64 (x : Z) : Z := x mod 2 ^ 64.
(** [std::size_t] arithmetic. *)
Definition usize (x : Z) : Z := x mod 2 ^ 64.

Definition Z_of_byte (b : byte) : Z := Z.of_N (Byte.to_N b).

(** [static_cast<uint8_t>(x)]: the low eight bits of [x]. *)
Definition byte_of_Z (x : Z) : byte :=
  match Byte.of_N (Z.to_N (x mod 256)) with
  | Some b => b
  | None => x00
  end.

(** [~x] on a [uint32_t]. *)
Definition not32 (x : Z) : Z := Z.lxor x 4294967295.

(** ** The object *)

Record MD5 : Type := mkMD5 {
  a_ : Z;
  b_ : Z;
  c_ : Z;
  d_ : Z;
  total_len_ : Z;
  buffer_ : list byte;
  buffer_len_ : Z
}.

Definition set_buffer_len (s : MD5) (n : Z) : MD5 :=
  mkMD5 (a_ s) (b_ s) (c_ s) (d_ s) (total_len_ s) (buffer_ s) n.

Definition set_buffer (s : MD5) (buf : list byte) : MD5 :=
  mkMD5 (a_ s) (b_ s) (c_ s) (d_ s) (total_len_ s) buf (buffer_len_ s).

Definition set_total_len (s : MD5) (n : Z) : MD5 :=
  mkMD5 (a_ s) (b_ s) (c_ s) (d_ s) n (buffer_ s) (buffer_len_ s).

(** [reset]: the four RFC 1321 constants, both counters to zero; [buffer_]
    is left as it is. *)
Definition reset (s : MD5) : MD5 :=
  mkMD5 1732584193 4023233417 2562383102 271733878 0 (buffer_ s) 0.

(** [MD5() { reset(); }] run on the storage [raw] the object is built in. *)
Definition MD5_ctor (raw : MD5) : MD5 := reset raw.

(** ** The compression function *)

Definition byte_at (p : list byte) (i : nat) : Z := Z_of_byte (nth i p x00).

Definition read_le32 (p : list byte) (off : nat) : Z :=
  Z.lor (Z.lor (Z.lor (byte_at p off)
                      (u32 (Z.shiftl (byte_at p (off + 1)) 8)))
               (u32 (Z.shiftl (byte_at p (off + 2)) 16)))
        (u32 (Z.shiftl (byte_at p (off + 3)) 24)).

Definition write_le32 (v : Z) : list byte :=
  [ byte_of_Z (Z.land v 255);
    byte_of_Z (Z.land (Z.shiftr v 8) 255);
    byte_of_Z (Z.land (Z.shiftr v 16) 255);
    byte_of_Z (Z.land (Z.shiftr v 24) 255) ].

(** The lambdas and the two static tables local to [transform]. *)
Module Transform.

Definition F (x y z : Z) : Z := Z.lor (Z.land x y) (Z.land (not32 x) z).
Definition G (x y z : Z) : Z := Z.lor (Z.land x z) (Z.land y (not32 z)).
Definition H (x y z : Z) : Z := Z.lxor (Z.lxor x y) z.
Definition I (x y z : Z) : Z := Z.lxor y (Z.lor x (not32 z)).

Definition rotl (v s : Z) : Z :=
  Z.lor (u32 (Z.shiftl v s)) (Z.shiftr v (u32 (32 - s))).

(** Per-round shift amounts. *)
Definition S : list Z :=
  [ 7;12;17;22; 7;12;17;22; 7;12;17;22; 7;12;17;22;
    5; 9;14;20; 5; 9;14;20; 5; 9;14;20; 5; 9;14;20;
    4;11;16;23; 4;11;16;23; 4;11;16;23; 4;11;16;23;
    6;10;15;21; 6;10;15;21; 6;10;15;21; 6;10;15;21 ].

(** Constants [K[i] = floor(2^32 * abs(sin(i+1)))]. *)
Definition K : list Z :=
  [ 0xd76aa478;0xe8c7b756;0x242070db;0xc1bdceee;0xf57c0faf;0x4787c62a;0xa8304613;0xfd469501;
    0x698098d8;0x8b44f7af;0xffff5bb1;0x895cd7be;0x6b901122;0xfd987193;0xa679438e;0x49b40821;
    0xf61e2562;0xc040b340;0x265e5a51;0xe9b6c7aa;0xd62f105d;0x02441453;0xd8a1e681;0xe7d3fbc8;
    0x21e1cde6;0xc33707d6;0xf4d50d87;0x455a14ed;0xa9e3e905;0xfcefa3f8;0x676f02d9;0x8d2a4c8a;
    0xfffa3942;0x8771f681;0x6d9d6122;0xfde5380c;0xa4beea44;0x4bdecfa9;0xf6bb4b60;0xbebfbc70;
    0x289b7ec6;0xeaa127fa;0xd4ef3085;0x04881d05;0xd9d4d039;0xe6db99e5;0x1fa27cf8;0xc4ac5665;
    0xf4292244;0x432aff97;0xab9423a7;0xfc93a039;0x655b59c3;0x8f0ccc92;0xffeff47d;0x85845dd1;
    0x6fa87e4f;0xfe2ce6e0;0xa3014314;0x4e0811a1;0xf7537e82;0xbd3af235;0x2ad7d2bb;0xeb86d391 ].

(** The working registers [A], [B], [C], [D] of [transform]. *)
Definition regs : Type := (Z * Z * Z * Z)%type.

(** The shift amount [S[i]] and the message-word index [g] of round [i]. *)
Definition round_shift (i : Z) : Z := nth (Z.to_nat i) S 0.

Definition round_g (i : Z) : Z :=
  if i <? 16 then i
  else if i <? 32 then Z.land (u32 (5 * i + 1)) 15
  else if i <? 48 then Z.land (u32 (3 * i + 5)) 15
  else Z.land (u32 (7 * i)) 15.

Definition round_f (i : Z) (B C D : Z) : Z :=
  if i <? 16 then F B C D
  else if i <? 32 then G B C D
  else if i <? 48 then H B C D
  else I B C D.

(** One iteration of the [for (uint32_t i = 0; i < 64; ++i)] loop. *)
Definition round (M : list Z) (r : regs) (i : Z) : regs :=
  let '(A, B, C, D) := r in
  let f := round_f i B C D in
  let g := round_g i in
  let tmp := D in
  let sum := u32 (A + f + nth (Z.to_nat i) K 0 + nth (Z.to_nat g) M 0) in
  (tmp, u32 (B + rotl sum (round_shift i)), B, C).

End Transform.

Definition round_indices : list Z := map Z.of_nat (seq 0 64).

(** [M[i] = read_le32(block + 4*i)] for [i < 16]. *)
Definition message_words (block : list byte) : list Z :=
  map (fun i => read_le32 block (4 * i)) (seq 0 16).

Definition transform (s : MD5) (block : list byte) : MD5 :=
  let M := message_words block in
  let '(A, B, C, D) :=
    fold_left (Transform.round M) round_indices (a_ s, b_ s, c_ s, d_ s) in
  mkMD5 (u32 (a_ s + A)) (u32 (b_ s + B)) (u32 (c_ s + C)) (u32 (d_ s + D))
        (total_len_ s) (buffer_ s) (buffer_len_ s).

(** ** [update] *)

Definition len (p : list byte) : Z := Z.of_nat (length p).

(** [std::memcpy(dst + off, src, n)] with [src] the [n] bytes copied. *)
Definition memcpy (dst : list byte) (off : Z) (src : list byte) : list byte :=
  firstn (Z.to_nat off) dst ++ src
    ++ skipn (Z.to_nat off + length src) dst.

(** [while (len >= 64) { transform(p); p += 64; len -= 64; }].  Every
    iteration consumes 64 bytes, so [length p] iterations always suffice. *)
Fixpoint blocks_loop (fuel : nat) (s : MD5) (p : list byte) : MD5 * list byte :=
  match fuel with
  | O => (s, p)
  | S fuel' =>
      if 64 <=? len p
      then blocks_loop fuel' (transform s p) (skipn 64 p)
      else (s, p)
  end.

(** The first [if] of [update]: top up a non-empty buffer. *)
Definition fill_buffer (s : MD5) (p : list byte) : MD5 * list byte :=
  if 0 <? buffer_len_ s then
    let room := usize (64 - buffer_len_ s) in
    let to_copy := if len p <? room then len p else room in
    let s1 := set_buffer s (memcpy (buffer_ s) (buffer_len_ s)
                                   (firstn (Z.to_nat to_copy) p)) in
    let s2 := set_buffer_len s1 (usize (buffer_len_ s1 + to_copy)) in
    let p' := skipn (Z.to_nat to_copy) p in
    if buffer_len_ s2 =? 64
    then (set_buffer_len (transform s2 (buffer_ s2)) 0, p')
    else (s2, p')
  else (s, p).

(** The last [if] of [update]: keep the remainder. *)
Definition store_remainder (s : MD5) (p : list byte) : MD5 :=
  if 0 <? len p
  then set_buffer_len (set_buffer s (memcpy (buffer_ s) 0 p)) (usize (len p))
  else s.

Definition update (s : MD5) (data : list byte) : MD5 :=
  let s0 := set_total_len s (u64 (total_len_ s + len data)) in
  let '(s1, p1) := fill_buffer s0 data in
  let '(s2, p2) := blocks_loop (length p1) s1 p1 in
  store_remainder s2 p2.

(** ** [finalize] *)

(** The local [uint8_t pad[128]]: a cell is [None] until it is written.  A
    store outside the array is undefined in C++; here it leaves the cells
    alone and raises [oob]. *)
Record pad_array : Type := mkPad {
  cells : list (option byte);
  oob : bool
}.

Definition pad_new : pad_array := mkPad (repeat None 128) false.

Definition pad_store (a : pad_array) (i : Z) (v : byte) : pad_array :=
  if (0 <=? i) && (i <? 128)
  then mkPad (firstn (Z.to_nat i) (cells a) ++ Some v
                :: skipn (Datatypes.S (Z.to_nat i)) (cells a)) (oob a)
  else mkPad (cells a) true.

(** [std::memset(pad + off, v, n)]. *)
Definition pad_memset (a : pad_array) (off : Z) (v : byte) (n : Z) : pad_array :=
  fold_left (fun a k => pad_store a (off + Z.of_nat k) v)
            (seq 0 (Z.to_nat n)) a.

(** Reading [pad[0 .. n)], as [update(pad, n)] does; [pad_initialized] says
    that none of those cells is still unwritten. *)
Definition pad_read (a : pad_array) (n : Z) : list byte :=
  map (fun c => match c with Some b => b | None => x00 end)
      (firstn (Z.to_nat n) (cells a)).

Definition pad_initialized (a : pad_array) (n : Z) : Prop :=
  Forall (fun c => c <> None) (firstn (Z.to_nat n) (cells a)).

Definition need_zeroes (buffer_len : Z) : Z :=
  let cur_mod := buffer_len mod 64 in
  if cur_mod <=? 56 then usize (56 - cur_mod) else usize (56 + 64 - cur_mod).

(** The padding block of [finalize]: the array and [pad_len]. *)
Definition build_padding (s : MD5) (bit_len : Z) : pad_array * Z :=
  let pad := pad_store pad_new 0 x80 in
  let pad_len := 1 in
  let pad := pad_memset pad pad_len x00 (need_zeroes (buffer_len_ s)) in
  let pad_len := usize (pad_len + need_zeroes (buffer_len_ s)) in
  fold_left
    (fun (st : pad_array * Z) (i : Z) =>
       let '(pad, pad_len) := st in
       (pad_store pad pad_len
                  (byte_of_Z (Z.land (Z.shiftr bit_len (8 * i)) 255)),
        usize (pad_len + 1)))
    [0; 1; 2; 3; 4; 5; 6; 7] (pad, pad_len).

(** [finalize] returns the digest and leaves the object reset. *)
Definition finalize (s : MD5) : list byte * MD5 :=
  let bit_len := u64 (total_len_ s * 8) in
  let '(pad, pad_len) := build_padding s bit_len in
  let s1 := update s (pad_read pad pad_len) in
  let out := write_le32 (a_ s1) ++ write_le32 (b_ s1)
               ++ write_le32 (c_ s1) ++ write_le32 (d_ s1) in
  (out, reset s1).

(** ** One-shot helpers and the hex formatter *)

(** [digest(data, len)]; [raw] is the storage of the local [MD5 m]. *)
Definition digest (raw : MD5) (data : list byte) : list byte :=
  let m := MD5_ctor raw in
  let m := update m data in
  fst (finalize m).

(** [digest(const std::string&)]. *)
Definition digest_string (raw : MD5) (s : string) : list byte :=
  digest raw (list_byte_of_string s).

Definition hexd : list ascii := list_ascii_of_string "0123456789abcdef".

Definition hex_char (i : Z) : ascii := nth (Z.to_nat i) hexd zero.

(** [s[i] = c] on a string already of the right size. *)
Definition set_char (s : list ascii) (i : nat) (c : ascii) : list ascii :=
  firstn i s ++ c :: skipn (Datatypes.S i) s.

Definition hex (d : list byte) : string :=
  let s := repeat zero 32 in
  string_of_list_ascii
    (fold_left
       (fun s i =>
          let di := Z_of_byte (nth i d x00) in
          let s := set_char s (2 * i) (hex_char (Z.land (Z.shiftr di 4) 15)) in
          set_char s (2 * i + 1) (hex_char (Z.land di 15)))
       (seq 0 16) s).

(** The storage used where a concrete object is needed: all fields zero. *)
Definition raw0 : MD5 := mkMD5 0 0 0 0 0 (repeat x00 64) 0.

(** ** Calls, traces and the logical state *)

(** The public mutating calls; [run] plays a sequence of them and
    [outputs] collects the digests the [finalize] calls return. *)
Inductive call : Type :=
| Reset
| Update (data : list byte)
| Finalize.

Definition step (s : MD5) (c : call) : MD5 :=
  match c with
  | Reset => reset s
  | Update data => update s data
  | Finalize => snd (finalize s)
  end.

Definition run (s : MD5) (cs : list call) : MD5 := fold_left step cs s.

Fixpoint outputs (s : MD5) (cs : list call) : list (list byte) :=
  match cs with
  | [] => []
  | Finalize :: cs' => fst (finalize s) :: outputs (snd (finalize s)) cs'
  | c :: cs' => outputs (step s c) cs'
  end.

(** Raw input bytes passed to [update] since the last (re)initialisation. *)
Definition count_call (n : Z) (c : call) : Z :=
  match c with
  | Reset => 0
  | Update data => n + len data
  | Finalize => 0
  end.

Definition raw_bytes (cs : list call) : Z := fold_left count_call cs 0.

(** The bytes held back: the first [buffer_len_] bytes of [buffer_]. *)
Definition pending (s : MD5) : list byte :=
  firstn (Z.to_nat (buffer_len_ s)) (buffer_ s).

Definition accumulators (s : MD5) : Transform.regs :=
  (a_ s, b_ s, c_ s, d_ s).

(** The hash state of the object: everything but the bytes of [buffer_]
    at and after [buffer_len_], which no member function reads before
    writing. *)
Record hash_state : Type := mkHashState {
  hs_accumulators : Transform.regs;
  hs_total_length : Z;
  hs_pending : list byte;
  hs_pending_length : Z
}.

Definition state_of (s : MD5) : hash_state :=
  mkHashState (accumulators s) (total_len_ s) (pending s) (buffer_len_ s).

(** What the types guarantee ([uint8_t buffer_[64]], [uint64_t]) together
    with the buffer bound that the member functions maintain. *)
Definition wf (s : MD5) : Prop :=
  length (buffer_ s) = 64%nat /\
  0 <= buffer_len_ s < 64 /\
  0 <= total_len_ s < 2 ^ 64.

(** Storage of the right shape for an [MD5] object. *)
Definition storage (raw : MD5) : Prop := length (buffer_ raw) = 64%nat.

(** The compression function on the accumulators alone. *)
Definition compress (r : Transform.regs) (block : list byte) : Transform.regs :=
  let '(a, b, c, d) := r in
  accumulators (transform (mkMD5 a b c d 0 [] 0) block).

(** Blocks absorbed from a byte sequence, and what is left over. *)
Fixpoint absorb_fuel (fuel : nat) (r : Transform.regs) (p : list byte)
  : Transform.regs * list byte :=
  match fuel with
  | O => (r, p)
  | S fuel' =>
      if 64 <=? len p
      then absorb_fuel fuel' (compress r p) (skipn 64 p)
      else (r, p)
  end.

Definition absorb (r : Transform.regs) (p : list byte)
  : Transform.regs * list byte :=
  absorb_fuel (length p) r p.

(** [update] on the logical state. *)
Definition absorb_state (h : hash_state) (data : list byte) : hash_state :=
  let '(r, rest) := absorb (hs_accumulators h) (hs_pending h ++ data) in
  mkHashState r (u64 (hs_total_length h + len data)) rest (len rest).

(** ** Definitions used to state the properties *)

(** The eight bytes of the length field, least significant first. *)
Definition length_field (bit_len : Z) : list byte :=
  map (fun i => byte_of_Z (Z.land (Z.shiftr bit_len (8 * i)) 255))
      [0; 1; 2; 3; 4; 5; 6; 7].

(** The bytes [finalize] feeds to [update]. *)
Definition padding_bytes (buffer_len bit_len : Z) : list byte :=
  x80 :: repeat x00 (Z.to_nat (need_zeroes buffer_len))
    ++ length_field bit_len.

(** [pad] holds exactly the bytes [w], written in order from index 0. *)
Definition pad_holds (a : pad_array) (w : list byte) : Prop :=
  cells a = map Some w ++ repeat None (128 - length w) /\
  oob a = false /\
  (length w <= 128)%nat.

Definition initial_state : hash_state :=
  mkHashState (1732584193, 4023233417, 2562383102, 271733878) 0 [] 0.

Definition digest_bytes (r : Transform.regs) : list byte :=
  let '(a, b, c, d) := r in
  write_le32 a ++ write_le32 b ++ write_le32 c ++ write_le32 d.

(** The digest [finalize] returns, from the logical state alone. *)
Definition final_digest (h : hash_state) : list byte :=
  digest_bytes
    (hs_accumulators
       (absorb_state h (padding_bytes (hs_pending_length h)
                                      (u64 (hs_total_length h * 8))))).

(** The two characters [hex] writes for one byte. *)
Definition hex_pair (b : byte) : list ascii :=
  [ hex_char (Z.land (Z.shiftr (Z_of_byte b) 4) 15);
    hex_char (Z.land (Z_of_byte b) 15) ].

(** Decoding, for the round trip: the value of a character of [[0-9a-f]],
    a byte from two of them, a byte sequence from a string. *)
Definition hex_value (c : ascii) : option Z :=
  let n := Z.of_nat (nat_of_ascii c) in
  if (48 <=? n) && (n <=? 57) then Some (n - 48)
  else if (97 <=? n) && (n <=? 102) then Some (n - 87)
  else None.

Definition is_lower_hex (c : ascii) : bool :=
  match hex_value c with Some _ => true | None => false end.

Definition unhex_byte (hi lo : ascii) : option byte :=
  match hex_value hi, hex_value lo with
  | Some h, Some l => Some (byte_of_Z (16 * h + l))
  | _, _ => None
  end.

Fixpoint unhex_chars (cs : list ascii) : option (list byte) :=
  match cs with
  | [] => Some []
  | hi :: lo :: rest =>
      match unhex_byte hi lo, unhex_chars rest with
      | Some b, Some bs => Some (b :: bs)
      | _, _ => None
      end
  | _ => None
  end.

Definition unhex (s : string) : option (list byte) :=
  unhex_chars (list_ascii_of_string s).

(** A shift of a 32-bit word is defined for amounts below the width. *)
Definition shift_defined (s : Z) : bool := (0 <=? s) && (s <? 32).

(** The table of the self-test [main] (compiled under [MD5_TEST]) and its
    outcome [ok]. *)
Definition tv : list (string * string) :=
  [ ("", "d41d8cd98f00b204e9800998ecf8427e");
    ("a", "0cc175b9c0f1b6a831c399e269772661");
    ("abc", "900150983cd24fb0d6963f7d28e17f72");
    ("message digest", "f96b697d7cb7938d525a2f31aaf161d0");
    ("abcdefghijklmnopqrstuvwxyz", "c3fcd3d76192e4007dfb496cca67e13b");
    ("ABCDEFGHIJKLMNOPQRSTUVWXYZabcdefghijklmnopqrstuvwxyz0123456789",
     "d174ab98d277d9f5a5611c2c9f419d9f");
    ("12345678901234567890123456789012345678901234567890123456789012345678901234567890",
     "57edf4a22be3c955ac49da2e2107b67a") ]%string.

Definition main_ok (raw : MD5) : bool :=
  fold_left
    (fun ok (t : string * string) =>
       let d := digest raw (list_byte_of_string (fst t)) in
       let hx := hex d in
       if String.eqb hx (snd t) then ok else false)
    tv true.

(** Little-endian value of a byte sequence, least significant byte
    first. *)
Definition le_decode (bs : list byte) : Z :=
  fold_right (fun b acc => Z_of_byte b + 256 * acc) 0 bs.

(** The first [n] consecutive 64-byte blocks of a byte sequence. *)
Definition chunks (l : list byte) (n : nat) : list (list byte) :=
  map (fun k => firstn 64 (skipn (64 * k) l)) (seq 0 n).

(** The rounds of group [k] of [transform]: rounds [16 k .. 16 k + 15]. *)
Definition round_group (k : nat) : list Z := map Z.of_nat (seq (16 * k) 16).

(** A 32-bit word. *)
Definition word32 (x : Z) : Prop := 0 <= x < 2 ^ 32.

Definition regs32 (r : Transform.regs) : Prop :=
  let '(a, b, c, d) := r in word32 a /\ word32 b /\ word32 c /\ word32 d.

(** * Properties *)

(** ** The compression function reads 64 bytes *)

Lemma transform_accumulators (s : MD5) (block : list byte) :
  accumulators (transform s block) = compress (accumulators s) block.
Proof.
  unfold compress, accumulators, transform; cbn [a_ b_ c_ d_].
  destruct (fold_left _ _ _) as [[[A B] C] D]; reflexivity.
Qed.

Lemma transform_frame (s : MD5) (block : list byte) :
  total_len_ (transform s block) = total_len_ s /\
  buffer_ (transform s block) = buffer_ s /\
  buffer_len_ (transform s block) = buffer_len_ s.
Proof.
  unfold transform.
  destruct (fold_left _ _ _) as [[[A B] C] D]; cbn; auto.
Qed.

Lemma message_words_ext (p q : list byte) :
  (forall k, (k < 64)%nat -> nth k p x00 = nth k q x00) ->
  message_words p = message_words q.
Proof.
  intros Hpq. unfold message_words.
  apply map_ext_in. intros i Hi. apply in_seq in Hi.
  unfold read_le32, byte_at.
  rewrite !Hpq by lia. reflexivity.
Qed.

Lemma compress_ext (r : Transform.regs) (p q : list byte) :
  (forall k, (k < 64)%nat -> nth k p x00 = nth k q x00) ->
  compress r p = compress r q.
Proof.
  intros Hpq. destruct r as [[[a b] c] d].
  unfold compress, transform.
  rewrite (message_words_ext p q Hpq). reflexivity.
Qed.

Lemma compress_app (r : Transform.regs) (p q : list byte) :
  64 <= len p -> compress r (p ++ q) = compress r p.
Proof.
  intros Hp. apply compress_ext. intros k Hk.
  apply app_nth1. unfold len in Hp. lia.
Qed.

(** From here on the compression function is used through the lemmas
    above only. *)
#[local] Opaque transform compress.

(** ** Absorbing a byte sequence block by block *)

Lemma len_nonneg (p : list byte) : 0 <= len p.
Proof. unfold len; lia. Qed.

Lemma len_app (p q : list byte) : len (p ++ q) = len p + len q.
Proof. unfold len. rewrite length_app. lia. Qed.

Lemma len_skipn (n : nat) (p : list byte) :
  (n <= length p)%nat -> len (skipn n p) = len p - Z.of_nat n.
Proof. intros Hn. unfold len. rewrite length_skipn. lia. Qed.

Lemma absorb_fuel_irrel (f1 : nat) :
  forall (f2 : nat) (r : Transform.regs) (p : list byte),
    (length p <= f1)%nat -> (length p <= f2)%nat ->
    absorb_fuel f1 r p = absorb_fuel f2 r p.
Proof.
  induction f1 as [|f1 IH]; intros f2 r p H1 H2.
  - destruct p; [|cbn in H1; lia]. destruct f2; reflexivity.
  - destruct f2 as [|f2].
    + destruct p; [|cbn in H2; lia]. reflexivity.
    + cbn [absorb_fuel]. destruct (64 <=? len p) eqn:E; [|reflexivity].
      apply Z.leb_le in E. unfold len in E.
      apply IH; rewrite length_skipn; lia.
Qed.

Lemma absorb_short (r : Transform.regs) (p : list byte) :
  len p < 64 -> absorb r p = (r, p).
Proof.
  intros Hp. unfold absorb. destruct (length p); [reflexivity|].
  cbn [absorb_fuel]. destruct (64 <=? len p) eqn:E; [|reflexivity].
  apply Z.leb_le in E. lia.
Qed.

Lemma absorb_step (r : Transform.regs) (p : list byte) :
  64 <= len p -> absorb r p = absorb (compress r p) (skipn 64 p).
Proof.
  intros Hp. unfold absorb.
  destruct (length p) as [|n] eqn:En; [unfold len in Hp; lia|].
  cbn [absorb_fuel]. apply Z.leb_le in Hp as E. rewrite E.
  apply absorb_fuel_irrel; rewrite length_skipn; lia.
Qed.

(** Induction on a byte sequence, 64 bytes at a time. *)
Lemma block_ind (P : list byte -> Prop) :
  (forall p, len p < 64 -> P p) ->
  (forall p, 64 <= len p -> P (skipn 64 p) -> P p) ->
  forall p, P p.
Proof.
  intros Hshort Hstep p.
  remember (length p) as n eqn:En.
  revert p En. induction n as [n IH] using lt_wf_ind. intros p En.
  destruct (Z_lt_le_dec (len p) 64) as [Hlt|Hge].
  - apply Hshort, Hlt.
  - apply Hstep; [exact Hge|].
    unfold len in Hge.
    apply (IH (length (skipn 64 p))); [rewrite length_skipn; lia|reflexivity].
Qed.

Lemma absorb_rest_short (p : list byte) :
  forall r, len (snd (absorb r p)) < 64.
Proof.
  induction p as [p Hp|p Hp IH] using block_ind; intros r.
  - rewrite absorb_short by exact Hp. exact Hp.
  - rewrite absorb_step by exact Hp. apply IH.
Qed.

Lemma absorb_app (p q : list byte) :
  forall r,
    absorb r (p ++ q) = absorb (fst (absorb r p)) (snd (absorb r p) ++ q).
Proof.
  induction p as [p Hp|p Hp IH] using block_ind; intros r.
  - rewrite (absorb_short r p) by exact Hp. reflexivity.
  - rewrite (absorb_step r p) by exact Hp.
    rewrite (absorb_step r (p ++ q)) by (rewrite len_app; pose proof (len_nonneg q); lia).
    rewrite compress_app by exact Hp.
    rewrite skipn_app.
    replace (64 - length p)%nat with 0%nat by (unfold len in Hp; lia).
    cbn [skipn]. apply IH.
Qed.

(** The loop of [update] computes [absorb] and touches nothing else. *)
Lemma blocks_loop_absorb (fuel : nat) :
  forall (s : MD5) (p : list byte),
    accumulators (fst (blocks_loop fuel s p))
      = fst (absorb_fuel fuel (accumulators s) p) /\
    snd (blocks_loop fuel s p) = snd (absorb_fuel fuel (accumulators s) p) /\
    total_len_ (fst (blocks_loop fuel s p)) = total_len_ s /\
    buffer_ (fst (blocks_loop fuel s p)) = buffer_ s /\
    buffer_len_ (fst (blocks_loop fuel s p)) = buffer_len_ s.
Proof.
  induction fuel as [|fuel IH]; intros s p; cbn [blocks_loop absorb_fuel].
  - auto.
  - destruct (64 <=? len p); [|cbn [fst snd]; repeat split; reflexivity].
    destruct (IH (transform s p) (skipn 64 p)) as (Ha & Hp & Ht & Hb & Hl).
    destruct (transform_frame s p) as (Ht' & Hb' & Hl').
    rewrite Ha, Hp, Ht, Hb, Hl, transform_accumulators, Ht', Hb', Hl'.
    repeat split; reflexivity.
Qed.

(** ** [update] on the logical state *)

Lemma usize_small (x : Z) : 0 <= x < 2 ^ 64 -> usize x = x.
Proof. intros Hx. unfold usize. apply Z.mod_small, Hx. Qed.

Lemma length_memcpy (dst : list byte) (off : Z) (src : list byte) :
  length dst = 64%nat -> 0 <= off -> off + len src <= 64 ->
  length (memcpy dst off src) = 64%nat.
Proof.
  intros Hd Hoff Hsrc. unfold memcpy, len in *.
  rewrite !length_app, length_firstn, length_skipn. lia.
Qed.

Lemma firstn_memcpy (dst : list byte) (off : Z) (src : list byte) :
  length dst = 64%nat -> 0 <= off -> off + len src <= 64 ->
  firstn (Z.to_nat (off + len src)) (memcpy dst off src)
    = firstn (Z.to_nat off) dst ++ src.
Proof.
  intros Hd Hoff Hsrc. unfold memcpy, len in *.
  rewrite app_assoc.
  replace (Z.to_nat (off + Z.of_nat (length src)))
    with (length (firstn (Z.to_nat off) dst ++ src) + 0)%nat
    by (rewrite length_app, length_firstn; lia).
  rewrite firstn_app_2. cbn [firstn]. apply app_nil_r.
Qed.

(** The loop and the final store of [update], from an empty buffer. *)
Lemma update_tail (s : MD5) (p : list byte) :
  length (buffer_ s) = 64%nat -> buffer_len_ s = 0 ->
  let s' := store_remainder (fst (blocks_loop (length p) s p))
                            (snd (blocks_loop (length p) s p)) in
  accumulators s' = fst (absorb (accumulators s) p) /\
  pending s' = snd (absorb (accumulators s) p) /\
  buffer_len_ s' = len (snd (absorb (accumulators s) p)) /\
  total_len_ s' = total_len_ s /\
  length (buffer_ s') = 64%nat.
Proof.
  intros Hbuf Hlen.
  destruct (blocks_loop_absorb (length p) s p) as (Ha & Hp & Ht & Hb & Hl).
  fold (absorb (accumulators s) p) in Ha, Hp.
  pose proof (absorb_rest_short p (accumulators s)) as Hshort.
  rewrite <- Hp in Hshort. rewrite <- Ha, <- Hp.
  set (s2 := fst (blocks_loop (length p) s p)) in *.
  set (p2 := snd (blocks_loop (length p) s p)) in *.
  pose proof (len_nonneg p2) as Hp2.
  cbv zeta. unfold store_remainder.
  destruct (0 <? len p2) eqn:E.
  - apply Z.ltb_lt in E.
    unfold pending, accumulators, set_buffer_len, set_buffer;
      cbn [a_ b_ c_ d_ total_len_ buffer_ buffer_len_].
    rewrite usize_small by lia. rewrite Hb.
    repeat split; try reflexivity.
    + change (len p2) with (0 + len p2) at 1.
      rewrite firstn_memcpy by (try assumption; lia). reflexivity.
    + exact Ht.
    + apply length_memcpy; try assumption; lia.
  - apply Z.ltb_ge in E.
    assert (p2 = []) as Hnil
      by (destruct p2; [reflexivity | unfold len in E; cbn in E; lia]).
    unfold pending. rewrite Hl, Hlen, Hnil, Hb.
    repeat split; try reflexivity; assumption.
Qed.

Lemma fill_buffer_empty (s : MD5) (p : list byte) :
  buffer_len_ s = 0 -> fill_buffer s p = (s, p).
Proof. intros Hl. unfold fill_buffer. rewrite Hl. reflexivity. Qed.

Lemma fill_buffer_partial (s : MD5) (p : list byte) :
  0 < buffer_len_ s < 64 -> len p < 64 - buffer_len_ s ->
  fill_buffer s p
    = (set_buffer_len (set_buffer s (memcpy (buffer_ s) (buffer_len_ s) p))
                      (buffer_len_ s + len p), []).
Proof.
  intros Hl Hp. pose proof (len_nonneg p) as Hp0. unfold fill_buffer.
  destruct (0 <? buffer_len_ s) eqn:E; [|apply Z.ltb_ge in E; lia].
  rewrite (usize_small (64 - buffer_len_ s)) by lia.
  destruct (len p <? 64 - buffer_len_ s) eqn:E1; [|apply Z.ltb_ge in E1; lia].
  replace (Z.to_nat (len p)) with (length p) by (unfold len; lia).
  rewrite firstn_all, skipn_all.
  cbn [buffer_len_ set_buffer set_buffer_len].
  rewrite usize_small by lia.
  destruct (buffer_len_ s + len p =? 64) eqn:E2; [apply Z.eqb_eq in E2; lia|].
  reflexivity.
Qed.

Lemma fill_buffer_full (s : MD5) (p : list byte) :
  0 < buffer_len_ s < 64 -> 64 - buffer_len_ s <= len p ->
  let k := Z.to_nat (64 - buffer_len_ s) in
  let buf := memcpy (buffer_ s) (buffer_len_ s) (firstn k p) in
  fill_buffer s p
    = (set_buffer_len
         (transform (set_buffer_len (set_buffer s buf) 64) buf) 0,
       skipn k p).
Proof.
  intros Hl Hp k buf. unfold fill_buffer.
  destruct (0 <? buffer_len_ s) eqn:E; [|apply Z.ltb_ge in E; lia].
  rewrite (usize_small (64 - buffer_len_ s)) by lia.
  destruct (len p <? 64 - buffer_len_ s) eqn:E1; [apply Z.ltb_lt in E1; lia|].
  fold k. fold buf.
  cbn [buffer_len_ buffer_ set_buffer set_buffer_len].
  replace (usize (buffer_len_ s + (64 - buffer_len_ s))) with 64
    by (rewrite usize_small; lia).
  reflexivity.
Qed.

Lemma len_pending (s : MD5) :
  wf s -> len (pending s) = buffer_len_ s.
Proof.
  intros (Hb & Hl & _). unfold len, pending. rewrite length_firstn. lia.
Qed.

(** [update] absorbs [pending ++ data] block by block, keeps what is left
    and preserves the shape of the object. *)
Lemma update_state_of (s : MD5) (data : list byte) :
  wf s ->
  state_of (update s data) = absorb_state (state_of s) data /\
  wf (update s data).
Proof.
  intros Hwf. pose proof (len_pending s Hwf) as Hpend.
  destruct Hwf as (Hbuf & Hlen & Htot).
  pose proof (len_nonneg data) as Hdata.
  assert (0 <= u64 (total_len_ s + len data) < 2 ^ 64) as Hu
    by (apply Z.mod_pos_bound; lia).
  unfold update, absorb_state, state_of;
    cbn [hs_accumulators hs_pending hs_total_length].
  set (s0 := set_total_len s (u64 (total_len_ s + len data))).
  assert (fill_buffer s0 data =
            (fst (fill_buffer s0 data), snd (fill_buffer s0 data))) as Hfb
    by apply surjective_pairing.
  rewrite Hfb. clear Hfb.
  set (s1 := fst (fill_buffer s0 data)).
  set (p1 := snd (fill_buffer s0 data)).
  rewrite (surjective_pairing (blocks_loop (length p1) s1 p1)).
  assert (length (buffer_ s1) = 64%nat /\ buffer_len_ s1 = 0 /\
          total_len_ s1 = u64 (total_len_ s + len data) /\
          absorb (accumulators s) (pending s ++ data)
            = absorb (accumulators s1) p1
          \/
          length (buffer_ s1) = 64%nat /\ 0 < buffer_len_ s1 < 64 /\
          total_len_ s1 = u64 (total_len_ s + len data) /\
          p1 = [] /\ accumulators s1 = accumulators s /\
          pending s1 = pending s ++ data) as Hcases.
  { destruct (Z.eq_dec (buffer_len_ s) 0) as [Hz|Hnz].
    - left. subst s1 p1. rewrite fill_buffer_empty by exact Hz.
      cbn [fst snd]. unfold pending. rewrite Hz. cbn [Z.to_nat firstn app].
      repeat split; assumption || reflexivity.
    - destruct (Z_lt_le_dec (len data) (64 - buffer_len_ s)) as [Hlt|Hge].
      + right. subst s1 p1.
        rewrite fill_buffer_partial by (cbn [buffer_len_ s0 set_total_len]; lia).
        cbn [fst snd]. unfold pending, accumulators.
        cbn [a_ b_ c_ d_ total_len_ buffer_ buffer_len_ s0
             set_buffer set_buffer_len set_total_len].
        rewrite firstn_memcpy by (try assumption; lia).
        rewrite length_memcpy by (try assumption; lia).
        repeat split; reflexivity || lia.
      + left. subst s1 p1.
        rewrite fill_buffer_full by (cbn [buffer_len_ s0 set_total_len]; lia).
        cbn [fst snd].
        set (k := Z.to_nat (64 - buffer_len_ s0)).
        set (buf := memcpy (buffer_ s0) (buffer_len_ s0) (firstn k data)).
        destruct (transform_frame
                    (set_buffer_len (set_buffer s0 buf) 64) buf)
          as (Ht' & Hb' & _).
        pose proof (transform_accumulators
                      (set_buffer_len (set_buffer s0 buf) 64) buf) as Ha'.
        set (T := transform (set_buffer_len (set_buffer s0 buf) 64) buf) in *.
        clearbody T.
        assert (accumulators (set_buffer_len T 0) = accumulators T) as HaT
          by reflexivity.
        rewrite HaT, Ha'.
        cbn [total_len_ buffer_ buffer_len_ set_buffer_len].
        rewrite Ht', Hb'.
        subst buf k s0.
        unfold accumulators.
        cbn [a_ b_ c_ d_ total_len_ buffer_ buffer_len_
             set_buffer set_buffer_len set_total_len].
        fold (accumulators s).
        set (k := Z.to_nat (64 - buffer_len_ s)).
        set (buf := memcpy (buffer_ s) (buffer_len_ s) (firstn k data)).
        assert (len (firstn k data) = 64 - buffer_len_ s) as Hk
          by (unfold len in *; rewrite length_firstn; lia).
        assert (length buf = 64%nat) as Hbl
          by (apply length_memcpy; try assumption; lia).
        assert (buf = pending s ++ firstn k data) as Hbuf'.
        { rewrite <- (firstn_all buf), Hbl.
          change 64%nat with (Z.to_nat 64).
          replace 64 with (buffer_len_ s + len (firstn k data)) at 1 by lia.
          apply firstn_memcpy; try assumption; lia. }
        repeat split; try assumption || reflexivity.
        rewrite absorb_step by (rewrite len_app; lia).
        rewrite <- (firstn_skipn k data) at 1.
        rewrite app_assoc, <- Hbuf'.
        rewrite compress_app by (unfold len; lia).
        rewrite <- (firstn_skipn k data) at 1.
        rewrite app_assoc, <- Hbuf', skipn_app, Hbl.
        rewrite skipn_all2 by lia. reflexivity. }
  destruct Hcases as [(Hb1 & Hl1 & Ht1 & Habs)|(Hb1 & Hl1 & Ht1 & Hp1 & Ha1 & Hpe1)].
  - destruct (update_tail s1 p1 Hb1 Hl1) as (Ha & Hp & Hl & Ht & Hb).
    rewrite Habs.
    destruct (absorb (accumulators s1) p1) as [r rest] eqn:Eabs.
    cbn [fst snd] in *.
    pose proof (absorb_rest_short p1 (accumulators s1)) as Hshort.
    rewrite Eabs in Hshort. cbn [snd] in Hshort.
    pose proof (len_nonneg rest).
    split.
    + rewrite Ha, Hp, Hl, Ht, Ht1. reflexivity.
    + unfold wf. rewrite Hb, Hl, Ht, Ht1. repeat split; lia.
  - rewrite Hp1. cbn [length blocks_loop fst snd].
    unfold store_remainder. cbn [len length Z.of_nat Z.ltb Z.compare].
    rewrite absorb_short by (rewrite <- Hpe1, len_pending; unfold wf; lia).
    rewrite Ha1, Hpe1, Ht1.
    assert (wf s1) as Hwf1 by (unfold wf; rewrite Ht1; repeat split; lia).
    rewrite <- (len_pending s1 Hwf1), Hpe1.
    split; [reflexivity | exact Hwf1].
Qed.

(** ** The padding built by [finalize] *)

Lemma need_zeroes_range (buffer_len : Z) :
  0 <= need_zeroes buffer_len <= 63.
Proof.
  unfold need_zeroes.
  pose proof (Z.mod_pos_bound buffer_len 64 ltac:(lia)) as Hm.
  destruct (buffer_len mod 64 <=? 56) eqn:E;
    [apply Z.leb_le in E | apply Z.leb_gt in E];
    rewrite usize_small; lia.
Qed.

Lemma need_zeroes_eq (buffer_len : Z) :
  need_zeroes buffer_len
    = if buffer_len mod 64 <=? 56
      then 56 - buffer_len mod 64 else 120 - buffer_len mod 64.
Proof.
  unfold need_zeroes.
  pose proof (Z.mod_pos_bound buffer_len 64 ltac:(lia)) as Hm.
  destruct (buffer_len mod 64 <=? 56) eqn:E;
    [apply Z.leb_le in E | apply Z.leb_gt in E];
    rewrite usize_small; lia.
Qed.

Lemma pad_new_holds : pad_holds pad_new [].
Proof. repeat split. cbn. lia. Qed.

Lemma store_at_end {A : Type} (l1 l2 : list A) (x y : A) :
  firstn (length l1) (l1 ++ x :: l2)
    ++ y :: skipn (S (length l1)) (l1 ++ x :: l2)
  = l1 ++ y :: l2.
Proof.
  rewrite firstn_app, Nat.sub_diag, firstn_all, firstn_O, app_nil_r.
  rewrite skipn_app, skipn_all2 by lia.
  replace (S (length l1) - length l1)%nat with 1%nat by lia.
  reflexivity.
Qed.

Lemma pad_store_holds (a : pad_array) (w : list byte) (v : byte) :
  pad_holds a w -> (length w < 128)%nat ->
  pad_holds (pad_store a (Z.of_nat (length w)) v) (w ++ [v]).
Proof.
  intros (Hc & Ho & Hw) Hlt. unfold pad_store.
  destruct ((0 <=? Z.of_nat (length w)) && (Z.of_nat (length w) <? 128)) eqn:E.
  - unfold pad_holds; cbn [cells oob]. rewrite Nat2Z.id, Hc.
    split; [|split; [exact Ho | rewrite length_app; cbn; lia]].
    replace (128 - length w)%nat with (S (128 - length (w ++ [v])))
      by (rewrite length_app; cbn [length]; lia).
    cbn [repeat].
    rewrite <- (length_map Some w) at 1 2.
    rewrite store_at_end, map_app, <- app_assoc. reflexivity.
  - apply andb_false_iff in E. destruct E as [E|E];
      [apply Z.leb_gt in E | apply Z.ltb_ge in E]; lia.
Qed.

Lemma pad_memset_holds (n : nat) :
  forall (a : pad_array) (w : list byte) (v : byte),
    pad_holds a w -> (length w + n <= 128)%nat ->
    pad_holds (pad_memset a (Z.of_nat (length w)) v (Z.of_nat n))
              (w ++ repeat v n).
Proof.
  unfold pad_memset. intros a w v. rewrite Nat2Z.id.
  induction n as [|n IH]; intros Ha Hn.
  - cbn. rewrite app_nil_r. exact Ha.
  - rewrite seq_S, fold_left_app. cbn [fold_left Nat.add].
    cbn [repeat]. rewrite repeat_cons, app_assoc.
    assert (pad_holds
              (fold_left
                 (fun a0 k => pad_store a0 (Z.of_nat (length w) + Z.of_nat k) v)
                 (seq 0 n) a) (w ++ repeat v n)) as Hn' by (apply IH; [exact Ha|lia]).
    replace (Z.of_nat (length w) + Z.of_nat n)
      with (Z.of_nat (length (w ++ repeat v n)))
      by (rewrite length_app, repeat_length; lia).
    apply pad_store_holds; [exact Hn'|].
    rewrite length_app, repeat_length. lia.
Qed.

Lemma length_loop_holds (bit_len : Z) (idx : list Z) :
  forall (a : pad_array) (w : list byte),
    pad_holds a w -> (length w + length idx <= 128)%nat ->
    let r :=
      fold_left
        (fun (st : pad_array * Z) (i : Z) =>
           let '(pad, pad_len) := st in
           (pad_store pad pad_len
                      (byte_of_Z (Z.land (Z.shiftr bit_len (8 * i)) 255)),
            usize (pad_len + 1)))
        idx (a, Z.of_nat (length w)) in
    pad_holds (fst r)
      (w ++ map (fun i => byte_of_Z (Z.land (Z.shiftr bit_len (8 * i)) 255)) idx)
    /\ snd r = Z.of_nat (length w + length idx).
Proof.
  induction idx as [|i idx IH]; intros a w Ha Hn; cbv zeta.
  - cbn [fold_left fst snd map length]. rewrite app_nil_r, Nat.add_0_r.
    split; [exact Ha | reflexivity].
  - cbn [fold_left map length] in *.
    rewrite usize_small by lia.
    replace (Z.of_nat (length w) + 1)
      with (Z.of_nat (length (w ++ [byte_of_Z (Z.land (Z.shiftr bit_len (8 * i)) 255)])))
      by (rewrite length_app; cbn [length]; lia).
    pose proof (pad_store_holds a w
                  (byte_of_Z (Z.land (Z.shiftr bit_len (8 * i)) 255)) Ha
                  ltac:(lia)) as Hs.
    destruct (IH _ _ Hs) as (H1 & H2).
    { rewrite length_app; cbn [length]; lia. }
    rewrite <- app_assoc in H1. cbn [app] in H1.
    split; [exact H1|]. rewrite H2, length_app. cbn [length]. lia.
Qed.

Lemma build_padding_spec (s : MD5) (bit_len : Z) :
  pad_holds (fst (build_padding s bit_len))
            (padding_bytes (buffer_len_ s) bit_len) /\
  snd (build_padding s bit_len)
    = len (padding_bytes (buffer_len_ s) bit_len) /\
  len (padding_bytes (buffer_len_ s) bit_len)
    = 9 + need_zeroes (buffer_len_ s).
Proof.
  pose proof (need_zeroes_range (buffer_len_ s)) as Hnz.
  set (nz := need_zeroes (buffer_len_ s)) in *.
  assert (len (padding_bytes (buffer_len_ s) bit_len) = 9 + nz) as Hlen.
  { unfold len, padding_bytes, length_field. fold nz.
    cbn [length]. rewrite length_app, repeat_length. cbn [length map]. lia. }
  pose proof (pad_store_holds pad_new [] x80 pad_new_holds ltac:(cbn; lia))
    as H1.
  cbn [length app Z.of_nat] in H1.
  pose proof (pad_memset_holds (Z.to_nat nz) _ _ x00 H1 ltac:(cbn; lia)) as H2.
  cbn [length Z.of_nat Pos.of_succ_nat] in H2.
  rewrite Z2Nat.id in H2 by lia.
  pose proof (length_loop_holds bit_len [0; 1; 2; 3; 4; 5; 6; 7] _ _ H2
                ltac:(cbn [app length]; rewrite repeat_length; lia))
    as (H3 & H4).
  unfold build_padding. fold nz.
  replace (usize (1 + nz))
    with (Z.of_nat (length ([x80] ++ repeat x00 (Z.to_nat nz))))
    by (cbn [app length]; rewrite repeat_length, usize_small; lia).
  split; [|split; [|exact Hlen]].
  - unfold padding_bytes, length_field. fold nz.
    rewrite <- app_assoc in H3. exact H3.
  - rewrite H4, Hlen. cbn [app length]. rewrite repeat_length. lia.
Qed.

Lemma pad_read_holds (a : pad_array) (w : list byte) :
  pad_holds a w ->
  pad_read a (len w) = w /\ pad_initialized a (len w).
Proof.
  intros (Hc & _ & _). unfold pad_read, pad_initialized, len.
  rewrite Nat2Z.id, Hc.
  rewrite <- (length_map Some w) at 1 3.
  rewrite firstn_app, Nat.sub_diag, firstn_all, firstn_O, app_nil_r.
  split.
  - rewrite map_map. apply map_id.
  - apply Forall_forall. intros c Hin. apply in_map_iff in Hin.
    destruct Hin as (b & <- & _). discriminate.
Qed.

(** [finalize], with the padding spelt out. *)
Lemma finalize_eq (s : MD5) :
  finalize s =
    let s1 := update s (padding_bytes (buffer_len_ s)
                                      (u64 (total_len_ s * 8))) in
    (write_le32 (a_ s1) ++ write_le32 (b_ s1)
       ++ write_le32 (c_ s1) ++ write_le32 (d_ s1),
     reset s1).
Proof.
  unfold finalize.
  destruct (build_padding_spec s (u64 (total_len_ s * 8))) as (Hh & Hl & _).
  destruct (build_padding s (u64 (total_len_ s * 8))) as [pad pad_len].
  cbn [fst snd] in Hh, Hl. subst pad_len.
  destruct (pad_read_holds _ _ Hh) as (-> & _). reflexivity.
Qed.

(** ** Calls on the logical state *)

Lemma state_of_reset (s : MD5) : state_of (reset s) = initial_state.
Proof. reflexivity. Qed.

Lemma wf_reset (s : MD5) : length (buffer_ s) = 64%nat -> wf (reset s).
Proof. intros Hb. unfold wf, reset; cbn. repeat split; lia || assumption. Qed.

Lemma wf_ctor (raw : MD5) : storage raw -> wf (MD5_ctor raw).
Proof. apply wf_reset. Qed.

Lemma finalize_state_of (s : MD5) :
  wf s ->
  fst (finalize s) = final_digest (state_of s) /\
  state_of (snd (finalize s)) = initial_state /\
  wf (snd (finalize s)).
Proof.
  intros Hwf. rewrite finalize_eq. cbv zeta. cbn [fst snd].
  set (pad := padding_bytes (buffer_len_ s) (u64 (total_len_ s * 8))).
  destruct (update_state_of s pad Hwf) as (Hst & Hwf').
  split; [|split].
  - unfold final_digest. cbn [state_of hs_pending_length hs_total_length].
    fold pad. rewrite <- Hst. reflexivity.
  - apply state_of_reset.
  - apply wf_reset, Hwf'.
Qed.

Lemma wf_step (s : MD5) (c : call) : wf s -> wf (step s c).
Proof.
  intros Hwf. destruct c; cbn [step].
  - apply wf_reset, Hwf.
  - apply update_state_of, Hwf.
  - apply finalize_state_of, Hwf.
Qed.

Lemma wf_run (cs : list call) : forall s, wf s -> wf (run s cs).
Proof.
  unfold run. induction cs as [|c cs IH]; intros s Hwf; cbn [fold_left].
  - exact Hwf.
  - apply IH, wf_step, Hwf.
Qed.

(** Two objects with the same logical state are indistinguishable. *)
Lemma step_state_of (s s' : MD5) (c : call) :
  wf s -> wf s' -> state_of s = state_of s' ->
  state_of (step s c) = state_of (step s' c).
Proof.
  intros Hwf Hwf' Heq. destruct c; cbn [step].
  - rewrite !state_of_reset. reflexivity.
  - destruct (update_state_of s data Hwf) as (-> & _).
    destruct (update_state_of s' data Hwf') as (-> & _).
    rewrite Heq. reflexivity.
  - destruct (finalize_state_of s Hwf) as (_ & -> & _).
    destruct (finalize_state_of s' Hwf') as (_ & -> & _). reflexivity.
Qed.

Lemma run_state_of (cs : list call) :
  forall s s', wf s -> wf s' -> state_of s = state_of s' ->
    state_of (run s cs) = state_of (run s' cs).
Proof.
  unfold run. induction cs as [|c cs IH]; intros s s' Hwf Hwf' Heq;
    cbn [fold_left].
  - exact Heq.
  - apply IH; try apply wf_step; try assumption.
    apply step_state_of; assumption.
Qed.

Lemma outputs_state_of (cs : list call) :
  forall s s', wf s -> wf s' -> state_of s = state_of s' ->
    outputs s cs = outputs s' cs.
Proof.
  induction cs as [|c cs IH]; intros s s' Hwf Hwf' Heq; [reflexivity|].
  pose proof (step_state_of s s' c Hwf Hwf' Heq) as Hstep.
  pose proof (wf_step s c Hwf) as Hw1.
  pose proof (wf_step s' c Hwf') as Hw2.
  destruct c; cbn [outputs]; cbn [step] in *.
  - apply IH; assumption.
  - apply IH; assumption.
  - destruct (finalize_state_of s Hwf) as (-> & _ & _).
    destruct (finalize_state_of s' Hwf') as (-> & _ & _).
    rewrite Heq. f_equal. apply IH; assumption.
Qed.

(** Absorbing in pieces is absorbing the concatenation. *)
Lemma absorb_state_nil (h : hash_state) :
  len (hs_pending h) < 64 -> 0 <= hs_total_length h < 2 ^ 64 ->
  hs_pending_length h = len (hs_pending h) ->
  absorb_state h [] = h.
Proof.
  intros Hp Ht Hl. destruct h as [r t p l]. cbn in *.
  unfold absorb_state; cbn [hs_accumulators hs_pending hs_total_length].
  rewrite app_nil_r, absorb_short by exact Hp.
  unfold u64. change (len []) with 0.
  rewrite Z.add_0_r, Z.mod_small by exact Ht. subst l. reflexivity.
Qed.

Lemma absorb_state_app (h : hash_state) (x y : list byte) :
  absorb_state (absorb_state h x) y = absorb_state h (x ++ y).
Proof.
  unfold absorb_state.
  rewrite app_assoc, (absorb_app (hs_pending h ++ x) y).
  destruct (absorb (hs_accumulators h) (hs_pending h ++ x)) as [r rest].
  cbn [hs_accumulators hs_pending hs_total_length fst snd].
  destruct (absorb r (rest ++ y)) as [r' rest'].
  f_equal. unfold u64. rewrite len_app, Zplus_mod_idemp_l. f_equal. lia.
Qed.

Lemma state_of_wf (s : MD5) :
  wf s ->
  len (hs_pending (state_of s)) < 64 /\
  0 <= hs_total_length (state_of s) < 2 ^ 64 /\
  hs_pending_length (state_of s) = len (hs_pending (state_of s)).
Proof.
  intros Hwf. pose proof (len_pending s Hwf) as Hp.
  destruct Hwf as (Hb & Hl & Ht). cbn [state_of hs_pending hs_total_length hs_pending_length].
  rewrite Hp. repeat split; lia.
Qed.

Lemma update_pieces (pieces : list (list byte)) :
  forall s, wf s ->
    state_of (fold_left update pieces s)
      = absorb_state (state_of s) (concat pieces) /\
    wf (fold_left update pieces s).
Proof.
  induction pieces as [|x pieces IH]; intros s Hwf; cbn [fold_left concat].
  - destruct (state_of_wf s Hwf) as (H1 & H2 & H3).
    rewrite absorb_state_nil by assumption. split; [reflexivity|exact Hwf].
  - destruct (update_state_of s x Hwf) as (Hx & Hwf').
    destruct (IH (update s x) Hwf') as (Hst & Hwf'').
    split; [|exact Hwf''].
    rewrite Hst, Hx. apply absorb_state_app.
Qed.

Lemma absorb_rest_len (p : list byte) :
  forall r, len (snd (absorb r p)) = len p mod 64.
Proof.
  induction p as [p Hp|p Hp IH] using block_ind; intros r.
  - rewrite absorb_short by exact Hp. cbn [snd].
    symmetry. apply Z.mod_small. pose proof (len_nonneg p). lia.
  - rewrite absorb_step, IH by exact Hp.
    rewrite len_skipn by (unfold len in Hp; lia).
    replace (len p - Z.of_nat 64) with (len p + (-1) * 64) by lia.
    apply Z_mod_plus_full.
Qed.

Lemma total_len_update (s : MD5) (data : list byte) :
  wf s -> total_len_ (update s data) = u64 (total_len_ s + len data).
Proof.
  intros Hwf. destruct (update_state_of s data Hwf) as (Hst & _).
  apply (f_equal hs_total_length) in Hst.
  unfold absorb_state in Hst.
  destruct (absorb _ _) in Hst. exact Hst.
Qed.

Lemma buffer_len_update (s : MD5) (data : list byte) :
  wf s -> buffer_len_ (update s data) = (buffer_len_ s + len data) mod 64.
Proof.
  intros Hwf. destruct (update_state_of s data Hwf) as (Hst & _).
  apply (f_equal hs_pending_length) in Hst.
  unfold absorb_state in Hst.
  pose proof (absorb_rest_len (hs_pending (state_of s) ++ data)
                (hs_accumulators (state_of s))) as Hrest.
  destruct (absorb _ _) in Hst, Hrest. cbn [hs_pending_length snd] in *.
  cbn [state_of hs_pending_length] in Hst.
  rewrite Hst, Hrest, len_app. cbn [state_of hs_pending].
  rewrite len_pending by exact Hwf. reflexivity.
Qed.

Lemma total_len_run (cs : list call) :
  forall (s : MD5) (n : Z),
    wf s -> total_len_ s = u64 n ->
    total_len_ (run s cs) = u64 (fold_left count_call cs n).
Proof.
  unfold run. induction cs as [|c cs IH]; intros s n Hwf Hn; cbn [fold_left].
  - exact Hn.
  - apply IH; [apply wf_step, Hwf|].
    destruct c; cbn [step count_call].
    + reflexivity.
    + rewrite total_len_update, Hn by exact Hwf.
      unfold u64. apply Zplus_mod_idemp_l.
    + destruct (finalize_state_of s Hwf) as (_ & Hst & _).
      apply (f_equal hs_total_length) in Hst. exact Hst.
Qed.

(** ** The hex formatter *)

Lemma hex_eq (d : list byte) :
  hex d = string_of_list_ascii
            (flat_map (fun i => hex_pair (nth i d x00)) (seq 0 16)).
Proof.
  unfold hex. reflexivity.
Qed.

Lemma hex_of_16 (d : list byte) :
  length d = 16%nat ->
  list_ascii_of_string (hex d) = flat_map hex_pair d.
Proof.
  intros Hd. rewrite hex_eq, list_ascii_of_string_of_list_ascii.
  do 16 (destruct d as [|? d]; [discriminate Hd|]).
  destruct d; [reflexivity | discriminate Hd].
Qed.

Lemma unhex_hex_pair (b : byte) :
  let hi := hex_char (Z.land (Z.shiftr (Z_of_byte b) 4) 15) in
  let lo := hex_char (Z.land (Z_of_byte b) 15) in
  unhex_byte hi lo = Some b /\
  is_lower_hex hi = true /\ is_lower_hex lo = true.
Proof. destruct b; vm_compute; auto. Qed.

Lemma unhex_flat_map (d : list byte) :
  unhex_chars (flat_map hex_pair d) = Some d /\
  Forall (fun c => is_lower_hex c = true) (flat_map hex_pair d) /\
  length (flat_map hex_pair d) = (2 * length d)%nat.
Proof.
  induction d as [|b d (IH1 & IH2 & IH3)]; [cbn; auto|].
  destruct (unhex_hex_pair b) as (Hb & Hhi & Hlo).
  change (flat_map hex_pair (b :: d))
    with (hex_char (Z.land (Z.shiftr (Z_of_byte b) 4) 15)
          :: hex_char (Z.land (Z_of_byte b) 15) :: flat_map hex_pair d).
  cbn [unhex_chars length]. rewrite Hb, IH1, IH3.
  repeat split; [|lia]. constructor; [exact Hhi|]. constructor; assumption.
Qed.

(** ** The one-shot digest *)

Lemma digest_eq (raw : MD5) (data : list byte) :
  storage raw ->
  digest raw data = final_digest (absorb_state initial_state data).
Proof.
  intros Hraw. unfold digest.
  pose proof (wf_ctor raw Hraw) as Hwf.
  destruct (update_state_of (MD5_ctor raw) data Hwf) as (Hst & Hwf').
  destruct (finalize_state_of _ Hwf') as (-> & _ & _).
  rewrite Hst. reflexivity.
Qed.

Lemma length_write_le32 (v : Z) : length (write_le32 v) = 4%nat.
Proof. reflexivity. Qed.

Lemma length_final_digest (h : hash_state) : length (final_digest h) = 16%nat.
Proof.
  unfold final_digest, digest_bytes.
  destruct (hs_accumulators _) as [[[a b] c] d].
  rewrite !length_app, !length_write_le32. reflexivity.
Qed.

Lemma raw_bytes_nonneg (cs : list call) :
  forall n, 0 <= n -> 0 <= fold_left count_call cs n.
Proof.
  induction cs as [|c cs IH]; intros n Hn; cbn [fold_left]; [exact Hn|].
  apply IH. destruct c; cbn [count_call]; try lia.
  pose proof (len_nonneg data). lia.
Qed.

(** * The claims *)

(** C1 (fails on the code).  The one-shot digest of ["abc"], rendered by
    [hex], is 64d84ee0864bcb879327060ae5737959 and not the RFC 1321 value
    900150983cd24fb0d6963f7d28e17f72 listed in the self-test table, so the
    self-test [main] reports a mismatch. *)
Theorem C1_abc_digest_mismatch (raw : MD5) :
  storage raw ->
  hex (digest_string raw "abc") = "64d84ee0864bcb879327060ae5737959"%string /\
  hex (digest_string raw "abc") <> "900150983cd24fb0d6963f7d28e17f72"%string /\
  main_ok raw = false.
Proof.
  intros Hraw.
  assert (hex (digest_string raw "abc")
          = "64d84ee0864bcb879327060ae5737959"%string) as Habc.
  { unfold digest_string. rewrite digest_eq by exact Hraw.
    vm_compute. reflexivity. }
  split; [exact Habc|]. split.
  - rewrite Habc. discriminate.
  - unfold main_ok, tv. cbn [fold_left fst snd].
    rewrite !digest_eq by exact Hraw. vm_compute. reflexivity.
Qed.

Lemma C1_abc_digest_mismatch_witness :
  storage raw0 /\
  hex (digest_string raw0 "abc") <> "900150983cd24fb0d6963f7d28e17f72"%string.
Proof.
  split; [reflexivity|].
  apply (C1_abc_digest_mismatch raw0). reflexivity.
Defined.

(** C2 (fails on the code).  The padding [finalize] builds is one 0x80
    byte, [need_zeroes] zero bytes and the eight bytes of the length field,
    but [need_zeroes] is computed as if the 0x80 byte were not there: the
    bytes pending plus the padding before the length field come to 57
    modulo 64, not 56, and the whole input to 1 modulo 64.  On a fresh
    object the padding has 56 zero bytes and 65 bytes in all. *)
Theorem C2_padding_one_zero_too_many (s : MD5) (bit_len : Z) :
  let nz := need_zeroes (buffer_len_ s) in
  let pad := fst (build_padding s bit_len) in
  let pad_len := snd (build_padding s bit_len) in
  pad_read pad pad_len
    = x80 :: repeat x00 (Z.to_nat nz) ++ length_field bit_len /\
  0 <= nz <= 63 /\
  pad_len = 1 + nz + 8 /\
  (buffer_len_ s + 1 + nz) mod 64 = 57 /\
  (buffer_len_ s + pad_len) mod 64 = 1 /\
  (buffer_len_ s = 0 -> nz = 56 /\ pad_len = 65).
Proof.
  cbv zeta.
  destruct (build_padding_spec s bit_len) as (Hh & Hl & Hlen).
  destruct (pad_read_holds _ _ Hh) as (Hr & _).
  pose proof (need_zeroes_range (buffer_len_ s)) as Hnz.
  rewrite Hl, Hr, Hlen.
  split; [reflexivity|]. split; [exact Hnz|]. split; [lia|].
  rewrite need_zeroes_eq.
  pose proof (Z.div_mod (buffer_len_ s) 64 ltac:(lia)) as Hdm.
  set (m := buffer_len_ s mod 64) in *.
  set (q := buffer_len_ s / 64) in *.
  assert (forall x, (x + q * 64) mod 64 = x mod 64) as Hmod
    by (intros x; apply Z_mod_plus_full).
  split; [|split].
  - destruct (m <=? 56).
    + replace (buffer_len_ s + 1 + (56 - m)) with (57 + q * 64) by lia.
      rewrite Hmod. reflexivity.
    + replace (buffer_len_ s + 1 + (120 - m)) with (121 + q * 64) by lia.
      rewrite Hmod. reflexivity.
  - destruct (m <=? 56).
    + replace (buffer_len_ s + (9 + (56 - m))) with (65 + q * 64) by lia.
      rewrite Hmod. reflexivity.
    + replace (buffer_len_ s + (9 + (120 - m))) with (129 + q * 64) by lia.
      rewrite Hmod. reflexivity.
  - intros Hz. subst m. rewrite Hz. cbn. lia.
Qed.

Lemma C2_padding_one_zero_too_many_witness :
  need_zeroes (buffer_len_ (MD5_ctor raw0)) = 56 /\
  snd (build_padding (MD5_ctor raw0) 0) = 65.
Proof.
  apply (C2_padding_one_zero_too_many (MD5_ctor raw0) 0). reflexivity.
Defined.

(** C3.  [finalize] on a freshly constructed object, with no byte
    absorbed, returns a 16-byte digest whose hex rendering is
    d41d8cd98f00b204e9800998ecf8427e; so does the one-shot digest of the
    empty input. *)
Theorem C3_empty_digest (raw : MD5) :
  storage raw ->
  length (fst (finalize (MD5_ctor raw))) = 16%nat /\
  hex (fst (finalize (MD5_ctor raw)))
    = "d41d8cd98f00b204e9800998ecf8427e"%string /\
  hex (digest raw []) = "d41d8cd98f00b204e9800998ecf8427e"%string.
Proof.
  intros Hraw.
  destruct (finalize_state_of _ (wf_ctor raw Hraw)) as (-> & _ & _).
  rewrite digest_eq by exact Hraw.
  split; [apply length_final_digest|].
  split; vm_compute; reflexivity.
Qed.

Lemma C3_empty_digest_witness :
  hex (fst (finalize (MD5_ctor raw0)))
    = "d41d8cd98f00b204e9800998ecf8427e"%string.
Proof.
  apply (C3_empty_digest raw0). reflexivity.
Defined.

(** C4.  Chunking invariance: feeding a byte sequence [x] to a freshly
    constructed object piece by piece, for any split of [x] into
    contiguous pieces, leaves the same hash state (accumulators, total
    length, pending bytes and their number) as one [update] with [x], and
    [finalize] then returns the same digest. *)
Theorem C4_chunking_invariance
    (raw : MD5) (x : list byte) (pieces : list (list byte)) :
  storage raw ->
  concat pieces = x ->
  state_of (fold_left update pieces (MD5_ctor raw))
    = state_of (update (MD5_ctor raw) x) /\
  fst (finalize (fold_left update pieces (MD5_ctor raw)))
    = fst (finalize (update (MD5_ctor raw) x)).
Proof.
  intros Hraw Hx. pose proof (wf_ctor raw Hraw) as Hwf.
  destruct (update_pieces pieces _ Hwf) as (Hp & Hwfp).
  destruct (update_state_of _ x Hwf) as (Hu & Hwfu).
  assert (state_of (fold_left update pieces (MD5_ctor raw))
          = state_of (update (MD5_ctor raw) x)) as Heq
    by (rewrite Hp, Hu, Hx; reflexivity).
  split; [exact Heq|].
  destruct (finalize_state_of _ Hwfp) as (-> & _).
  destruct (finalize_state_of _ Hwfu) as (-> & _).
  rewrite Heq. reflexivity.
Qed.

Lemma C4_chunking_invariance_witness :
  state_of (fold_left update [[x61]; []; [x62; x63]] (MD5_ctor raw0))
    = state_of (update (MD5_ctor raw0) [x61; x62; x63]).
Proof.
  apply (C4_chunking_invariance raw0 [x61; x62; x63] [[x61]; []; [x62; x63]]);
    reflexivity.
Defined.

(** The bytes of [buffer_] beyond the pending ones are not part of the
    hash state: a 64-byte input fed in one call is compressed straight from
    the input and leaves [buffer_] untouched, fed in two pieces it passes
    through [buffer_] and stays there. *)
Example stale_buffer_bytes_differ :
  buffer_ (fold_left update [[x61]; repeat x61 63] (MD5_ctor raw0))
    <> buffer_ (update (MD5_ctor raw0) (repeat x61 64)).
Proof. vm_compute. discriminate. Qed.

(** C5.  After [finalize] the hash state of the object (accumulators,
    total length, pending bytes and their number) is the initial one, that
    of a freshly constructed or freshly reset object, and every later
    sequence of calls returns the same digests and passes through the same
    hash states as on a freshly constructed object. *)
Theorem C5_finalize_resets (s raw : MD5) (cs : list call) :
  wf s -> storage raw ->
  state_of (snd (finalize s)) = initial_state /\
  state_of (snd (finalize s)) = state_of (MD5_ctor raw) /\
  state_of (snd (finalize s)) = state_of (reset s) /\
  outputs (snd (finalize s)) cs = outputs (MD5_ctor raw) cs /\
  state_of (run (snd (finalize s)) cs) = state_of (run (MD5_ctor raw) cs).
Proof.
  intros Hwf Hraw.
  destruct (finalize_state_of s Hwf) as (_ & Hst & Hwf').
  pose proof (wf_ctor raw Hraw) as Hwfr.
  assert (state_of (snd (finalize s)) = state_of (MD5_ctor raw)) as Heq
    by (rewrite Hst; reflexivity).
  split; [exact Hst|]. split; [exact Heq|].
  split; [rewrite Hst; reflexivity|].
  split; [apply outputs_state_of | apply run_state_of]; assumption.
Qed.

Lemma C5_finalize_resets_witness :
  state_of (snd (finalize (update (MD5_ctor raw0) [x61; x62; x63])))
    = initial_state.
Proof.
  apply (C5_finalize_resets (update (MD5_ctor raw0) [x61; x62; x63]) raw0 []).
  - apply update_state_of, wf_ctor. reflexivity.
  - reflexivity.
Defined.

(** C6.  In every state reached from a freshly constructed object by
    [reset], [update] and [finalize] calls the pending length is between 0
    and 63 and is the number of pending bytes; an [update] moves it to the
    sum modulo 64, and one that fills the buffer to exactly 64 bytes runs
    the compression function once on those bytes and leaves it empty. *)
Theorem C6_pending_length_bound (raw : MD5) (cs : list call) :
  storage raw ->
  let s := run (MD5_ctor raw) cs in
  0 <= buffer_len_ s <= 63 /\
  len (pending s) = buffer_len_ s /\
  (forall data,
      buffer_len_ (update s data) = (buffer_len_ s + len data) mod 64) /\
  (forall data,
      buffer_len_ s + len data = 64 ->
      buffer_len_ (update s data) = 0 /\
      accumulators (update s data)
        = compress (accumulators s) (pending s ++ data)).
Proof.
  intros Hraw s.
  assert (wf s) as Hwf by (apply wf_run, wf_ctor, Hraw).
  pose proof (len_pending s Hwf) as Hpend.
  split; [destruct Hwf as (_ & Hl & _); lia|].
  split; [exact Hpend|].
  split; [intros data; apply buffer_len_update, Hwf|].
  intros data H64.
  split; [rewrite buffer_len_update, H64 by exact Hwf; reflexivity|].
  destruct (update_state_of s data Hwf) as (Hst & _).
  apply (f_equal hs_accumulators) in Hst.
  unfold absorb_state in Hst.
  cbn [state_of hs_accumulators hs_pending] in Hst.
  rewrite absorb_step in Hst by (rewrite len_app; lia).
  rewrite absorb_short in Hst.
  - exact Hst.
  - rewrite len_skipn; rewrite ?length_app; unfold len in *;
      rewrite ?length_app in *; lia.
Qed.

Lemma C6_pending_length_bound_witness :
  0 <= buffer_len_
         (run (MD5_ctor raw0)
              [Update (repeat x61 70); Finalize; Update (repeat x62 64);
               Update [x63]; Reset; Update (repeat x64 63)]) <= 63.
Proof.
  apply (C6_pending_length_bound raw0). reflexivity.
Defined.

(** C7.  In every state reached from a freshly constructed object the
    total length is the number of input bytes passed to [update] since the
    object was last constructed, reset or finalized, as a 64-bit value;
    every [update], the empty one included, adds the length of its input
    to it; [finalize] takes the bit length from it before it feeds the
    padding, and the padding is not counted once [finalize] has returned. *)
Theorem C7_total_length (raw : MD5) (cs : list call) :
  storage raw ->
  let s := run (MD5_ctor raw) cs in
  total_len_ s = u64 (raw_bytes cs) /\
  (raw_bytes cs < 2 ^ 64 -> total_len_ s = raw_bytes cs) /\
  (forall data, total_len_ (update s data) = u64 (total_len_ s + len data)) /\
  total_len_ (update s []) = total_len_ s /\
  finalize s
    = (let s1 :=
         update s (x80 :: repeat x00 (Z.to_nat (need_zeroes (buffer_len_ s)))
                       ++ length_field (u64 (total_len_ s * 8))) in
       (write_le32 (a_ s1) ++ write_le32 (b_ s1)
          ++ write_le32 (c_ s1) ++ write_le32 (d_ s1), reset s1)) /\
  total_len_ (snd (finalize s)) = 0.
Proof.
  intros Hraw s.
  assert (wf s) as Hwf by (apply wf_run, wf_ctor, Hraw).
  assert (total_len_ s = u64 (raw_bytes cs)) as Htot
    by (apply total_len_run; [apply wf_ctor, Hraw | reflexivity]).
  pose proof (raw_bytes_nonneg cs 0 (Z.le_refl 0)) as Hnonneg.
  fold (raw_bytes cs) in Hnonneg.
  split; [exact Htot|].
  split; [intros Hlt; rewrite Htot; apply Z.mod_small; lia|].
  split; [intros data; apply total_len_update, Hwf|].
  split.
  - rewrite total_len_update by exact Hwf. change (len []) with 0.
    rewrite Z.add_0_r. destruct Hwf as (_ & _ & Ht). apply Z.mod_small, Ht.
  - split; [apply finalize_eq|].
    destruct (finalize_state_of s Hwf) as (_ & Hst & _).
    apply (f_equal hs_total_length) in Hst. exact Hst.
Qed.

Lemma C7_total_length_witness :
  total_len_ (run (MD5_ctor raw0)
                  [Update [x61]; Finalize; Update [x62; x63]; Update []])
    = 2.
Proof.
  apply (C7_total_length raw0
           [Update [x61]; Finalize; Update [x62; x63]; Update []]).
  reflexivity.
Defined.

Lemma length_list_ascii_of_string (s : string) :
  length (list_ascii_of_string s) = String.length s.
Proof. induction s as [|c s IH]; cbn; congruence. Qed.

(** C8.  For a 16-byte digest [d], [hex d] has 32 characters, all of them
    in [[0-9a-f]]; they are the two digits of each byte, high nibble first,
    in the order of the bytes; and decoding them two by two gives back
    [d]. *)
Theorem C8_hex_round_trip (d : list byte) :
  length d = 16%nat ->
  String.length (hex d) = 32%nat /\
  Forall (fun c => is_lower_hex c = true) (list_ascii_of_string (hex d)) /\
  list_ascii_of_string (hex d) = flat_map hex_pair d /\
  unhex (hex d) = Some d.
Proof.
  intros Hd. pose proof (hex_of_16 d Hd) as Hhex.
  destruct (unhex_flat_map d) as (Hun & Hall & Hlen).
  unfold unhex. rewrite <- length_list_ascii_of_string, Hhex, Hlen, Hd.
  repeat split; assumption || reflexivity.
Qed.

Lemma C8_hex_round_trip_witness :
  unhex (hex (digest raw0 [])) = Some (digest raw0 []).
Proof.
  apply (C8_hex_round_trip (digest raw0 [])). reflexivity.
Defined.

(** C9.  Whatever the state, [finalize] computes a padding length between
    9 and 72: no store into the 128-byte array [pad] falls outside it, and
    the [pad_len] bytes that [update] then reads have all been written. *)
Theorem C9_pad_within_bounds (s : MD5) (bit_len : Z) :
  let pad := fst (build_padding s bit_len) in
  let pad_len := snd (build_padding s bit_len) in
  9 <= pad_len <= 72 /\
  oob pad = false /\
  length (cells pad) = 128%nat /\
  pad_initialized pad pad_len.
Proof.
  cbv zeta.
  destruct (build_padding_spec s bit_len) as (Hh & Hl & Hlen).
  destruct (pad_read_holds _ _ Hh) as (_ & Hinit).
  pose proof (need_zeroes_range (buffer_len_ s)) as Hnz.
  rewrite Hl. split; [lia|].
  destruct Hh as (Hc & Ho & Hw).
  split; [exact Ho|]. split; [|exact Hinit].
  rewrite Hc, length_app, length_map, repeat_length. lia.
Qed.

(** C10.  The table [S] has 64 entries, all between 4 and 23; the shift
    amount of every round of the compression function is an entry of [S],
    so it lies between 1 and 31 and both shifts of [rotl], by [s] and by
    [32 - s], are by less than the width of a 32-bit word. *)
Theorem C10_rotation_amounts :
  length Transform.S = 64%nat /\
  Forall (fun s => 4 <= s <= 23) Transform.S /\
  Forall (fun i =>
            let s := Transform.round_shift i in
            In s Transform.S /\
            1 <= s <= 31 /\
            shift_defined s = true /\
            shift_defined (u32 (32 - s)) = true)
         round_indices.
Proof.
  assert (Forall (fun s => 4 <= s <= 23) Transform.S) as HS
    by (unfold Transform.S; repeat constructor; lia).
  split; [reflexivity|]. split; [exact HS|].
  apply Forall_forall. intros i Hi. cbv zeta.
  unfold round_indices in Hi. apply in_map_iff in Hi.
  destruct Hi as (n & <- & Hn). apply in_seq in Hn.
  assert (In (Transform.round_shift (Z.of_nat n)) Transform.S) as Hin
    by (unfold Transform.round_shift; rewrite Nat2Z.id; apply nth_In;
        change (length Transform.S) with 64%nat; lia).
  pose proof (proj1 (Forall_forall _ _) HS _ Hin) as Hb. cbv beta in Hb.
  split; [exact Hin|]. split; [lia|].
  unfold shift_defined, u32.
  rewrite Z.mod_small by lia.
  split; apply andb_true_iff; split;
    (apply Z.leb_le || apply Z.ltb_lt); lia.
Qed.

(** * Further properties of the code *)

(** ** Bytes and little-endian words *)

Lemma Z_of_byte_range (b : byte) : 0 <= Z_of_byte b < 256.
Proof.
  unfold Z_of_byte. pose proof (Byte.to_N_bounded b). lia.
Qed.

Lemma Z_of_byte_of_Z (x : Z) : Z_of_byte (byte_of_Z x) = x mod 256.
Proof.
  unfold Z_of_byte, byte_of_Z.
  pose proof (Z.mod_pos_bound x 256 ltac:(lia)) as Hx.
  destruct (Byte.of_N (Z.to_N (x mod 256))) as [b|] eqn:E.
  - apply Byte.to_of_N in E. rewrite E. lia.
  - apply Byte.of_N_None_iff in E. lia.
Qed.

Lemma byte_of_Z_of_byte (b : byte) : byte_of_Z (Z_of_byte b) = b.
Proof.
  unfold byte_of_Z. rewrite Z.mod_small by apply Z_of_byte_range.
  unfold Z_of_byte. rewrite N2Z.id, Byte.of_to_N. reflexivity.
Qed.

(** The byte [write_le32] and [finalize] cut out of a word at bit [8 * i]. *)
Lemma byte_cut (x i : Z) :
  0 <= i ->
  Z_of_byte (byte_of_Z (Z.land (Z.shiftr x (8 * i)) 255))
    = (x / 2 ^ (8 * i)) mod 256.
Proof.
  intros Hi. rewrite Z_of_byte_of_Z.
  change 255 with (Z.ones 8).
  rewrite Z.land_ones, Z.shiftr_div_pow2 by lia.
  change (2 ^ 8) with 256. apply Z.mod_mod. lia.
Qed.

(** Or-ing in a value shifted past the bits already set is an addition. *)
Lemma lor_shifted (a b k : Z) :
  0 <= k -> 0 <= a < 2 ^ k -> Z.lor a (b * 2 ^ k) = a + b * 2 ^ k.
Proof.
  intros Hk Ha.
  rewrite <- (Z.add_lor_land a (b * 2 ^ k)).
  assert (Z.land a (b * 2 ^ k) = 0) as ->; [|lia].
  apply Z.bits_inj'. intros n Hn.
  rewrite Z.land_spec, Z.bits_0.
  destruct (Z_lt_le_dec n k) as [Hlt|Hge].
  - rewrite Z.mul_pow2_bits_low by exact Hlt. apply andb_false_r.
  - rewrite <- (Z.mod_small a (2 ^ k)) by exact Ha.
    rewrite Z.mod_pow2_bits_high by lia. reflexivity.
Qed.

(** [read_le32] as a sum. *)
Lemma read_le32_sum (p : list byte) (off : nat) :
  read_le32 p off
    = byte_at p off + byte_at p (off + 1) * 2 ^ 8
      + byte_at p (off + 2) * 2 ^ 16 + byte_at p (off + 3) * 2 ^ 24.
Proof.
  unfold read_le32, u32.
  pose proof (Z_of_byte_range (nth off p x00)) as H0.
  pose proof (Z_of_byte_range (nth (off + 1) p x00)) as H1.
  pose proof (Z_of_byte_range (nth (off + 2) p x00)) as H2.
  pose proof (Z_of_byte_range (nth (off + 3) p x00)) as H3.
  unfold byte_at.
  rewrite !Z.shiftl_mul_pow2 by lia.
  rewrite !Z.mod_small by lia.
  rewrite (lor_shifted _ _ 8) by lia.
  rewrite (lor_shifted _ _ 16) by lia.
  rewrite (lor_shifted _ _ 24) by lia. reflexivity.
Qed.

Lemma read_le32_write_le32 (v : Z) (rest : list byte) :
  word32 v -> read_le32 (write_le32 v ++ rest) 0 = v.
Proof.
  intros Hv. unfold word32 in Hv. rewrite read_le32_sum.
  unfold byte_at, write_le32. cbn [nth app Nat.add].
  rewrite <- (Z.shiftr_0_r v) at 1.
  change 0 with (8 * 0) at 1. change 8 with (8 * 1) at 2.
  change 16 with (8 * 2) at 1. change 24 with (8 * 3) at 1.
  rewrite !byte_cut by lia.
  change (2 ^ (8 * 0)) with 1. change (2 ^ (8 * 1)) with 256.
  change (2 ^ (8 * 2)) with 65536. change (2 ^ (8 * 3)) with 16777216.
  change (2 ^ 8) with 256. change (2 ^ 16) with 65536.
  change (2 ^ 24) with 16777216. change (2 ^ 32) with 4294967296 in Hv.
  Z.div_mod_to_equations. lia.
Qed.

(** X1.  [write_le32] and [read_le32] are inverse to each other: the four
    bytes written for a 32-bit word read back as that word, and the word
    read from four bytes is written back as those bytes. *)
Theorem X1_le32_round_trip :
  (forall v rest, word32 v -> read_le32 (write_le32 v ++ rest) 0 = v) /\
  (forall b0 b1 b2 b3 rest,
      write_le32 (read_le32 (b0 :: b1 :: b2 :: b3 :: rest) 0)
        = [b0; b1; b2; b3]).
Proof.
  split; [exact read_le32_write_le32|].
  intros b0 b1 b2 b3 rest. rewrite read_le32_sum.
  unfold byte_at, write_le32. cbn [nth Nat.add].
  pose proof (Z_of_byte_range b0) as H0.
  pose proof (Z_of_byte_range b1) as H1.
  pose proof (Z_of_byte_range b2) as H2.
  pose proof (Z_of_byte_range b3) as H3.
  set (v := Z_of_byte b0 + Z_of_byte b1 * 2 ^ 8 + Z_of_byte b2 * 2 ^ 16
            + Z_of_byte b3 * 2 ^ 24).
  change 255 with (Z.ones 8).
  rewrite !Z.land_ones, !Z.shiftr_div_pow2 by lia.
  assert (v mod 2 ^ 8 = Z_of_byte b0 /\
          (v / 2 ^ 8) mod 2 ^ 8 = Z_of_byte b1 /\
          (v / 2 ^ 16) mod 2 ^ 8 = Z_of_byte b2 /\
          (v / 2 ^ 24) mod 2 ^ 8 = Z_of_byte b3) as (-> & -> & -> & ->).
  { subst v.
    change (2 ^ 8) with 256. change (2 ^ 16) with 65536.
    change (2 ^ 24) with 16777216.
    repeat split; Z.div_mod_to_equations; lia. }
  rewrite !byte_of_Z_of_byte. reflexivity.
Qed.

Lemma X1_le32_round_trip_witness :
  read_le32 (write_le32 1732584193 ++ [x00]) 0 = 1732584193.
Proof.
  apply (proj1 X1_le32_round_trip). unfold word32. lia.
Defined.

(** X2.  The eight bytes [finalize] appends for the length are the
    little-endian encoding of the 64-bit bit length: they decode to it. *)
Theorem X2_length_field_little_endian (bit_len : Z) :
  0 <= bit_len < 2 ^ 64 ->
  length (length_field bit_len) = 8%nat /\
  le_decode (length_field bit_len) = bit_len.
Proof.
  intros Hx. split; [reflexivity|].
  unfold length_field, le_decode. cbn [map fold_right].
  rewrite !byte_cut by lia.
  change (2 ^ (8 * 0)) with 1. change (2 ^ (8 * 1)) with 256.
  change (2 ^ (8 * 2)) with 65536. change (2 ^ (8 * 3)) with 16777216.
  change (2 ^ (8 * 4)) with 4294967296.
  change (2 ^ (8 * 5)) with 1099511627776.
  change (2 ^ (8 * 6)) with 281474976710656.
  change (2 ^ (8 * 7)) with 72057594037927936.
  change (2 ^ 64) with 18446744073709551616 in Hx.
  Z.div_mod_to_equations. lia.
Qed.

Lemma X2_length_field_little_endian_witness :
  le_decode (length_field 24) = 24.
Proof.
  apply (X2_length_field_little_endian 24). lia.
Defined.

(** ** The lambdas and tables of [transform] *)

Lemma word32_high (x n : Z) :
  word32 x -> 32 <= n -> Z.testbit x n = false.
Proof.
  intros Hx Hn. unfold word32 in Hx.
  rewrite <- (Z.mod_small x (2 ^ 32)) by exact Hx.
  apply Z.mod_pow2_bits_high. lia.
Qed.

Lemma word32_of_bits (x : Z) :
  0 <= x -> (forall n, 32 <= n -> Z.testbit x n = false) -> word32 x.
Proof.
  intros Hx Hbits. unfold word32. split; [exact Hx|].
  assert (x mod 2 ^ 32 = x) as <-.
  { apply Z.bits_inj'. intros n Hn.
    rewrite Z.testbit_mod_pow2 by lia.
    destruct (Z.ltb_spec n 32) as [Hlt|Hge]; [reflexivity|].
    rewrite Hbits by exact Hge. reflexivity. }
  apply Z.mod_pos_bound. lia.
Qed.

Lemma not32_spec (x n : Z) :
  0 <= n < 32 -> Z.testbit (not32 x) n = negb (Z.testbit x n).
Proof.
  intros Hn. unfold not32. change 4294967295 with (Z.ones 32).
  rewrite Z.lxor_spec, Z.ones_spec_low by lia. apply xorb_true_r.
Qed.

Lemma not32_word32 (x : Z) : word32 x -> word32 (not32 x).
Proof.
  intros Hx. apply word32_of_bits.
  - unfold not32. apply Z.lxor_nonneg. unfold word32 in Hx. lia.
  - intros n Hn. unfold not32. change 4294967295 with (Z.ones 32).
    rewrite Z.lxor_spec, Z.ones_spec_high, (word32_high x n) by (lia || assumption).
    reflexivity.
Qed.

Lemma lor_word32 (x y : Z) : word32 x -> word32 y -> word32 (Z.lor x y).
Proof.
  intros Hx Hy. apply word32_of_bits.
  - apply Z.lor_nonneg. unfold word32 in *. lia.
  - intros n Hn. rewrite Z.lor_spec, (word32_high x n), (word32_high y n)
      by assumption. reflexivity.
Qed.

Lemma land_word32 (x y : Z) : word32 x -> word32 y -> word32 (Z.land x y).
Proof.
  intros Hx Hy. apply word32_of_bits.
  - apply Z.land_nonneg. unfold word32 in *. lia.
  - intros n Hn. rewrite Z.land_spec, (word32_high x n) by assumption.
    reflexivity.
Qed.

Lemma lxor_word32 (x y : Z) : word32 x -> word32 y -> word32 (Z.lxor x y).
Proof.
  intros Hx Hy. apply word32_of_bits.
  - apply Z.lxor_nonneg. unfold word32 in *. lia.
  - intros n Hn. rewrite Z.lxor_spec, (word32_high x n), (word32_high y n)
      by assumption. reflexivity.
Qed.

(** X3.  On 32-bit words the four round functions act bit by bit: [F]
    selects [y] where [x] is set and [z] elsewhere, [G] selects [x] where
    [z] is set and [y] elsewhere, [H] is the parity of the three bits and
    [I] is [y] xor ([x] or not [z]); each result is a 32-bit word. *)
Theorem X3_round_functions_bitwise (x y z n : Z) :
  word32 x -> word32 y -> word32 z -> 0 <= n < 32 ->
  (word32 (Transform.F x y z) /\ word32 (Transform.G x y z) /\
   word32 (Transform.H x y z) /\ word32 (Transform.I x y z)) /\
  Z.testbit (Transform.F x y z) n
    = (if Z.testbit x n then Z.testbit y n else Z.testbit z n) /\
  Z.testbit (Transform.G x y z) n
    = (if Z.testbit z n then Z.testbit x n else Z.testbit y n) /\
  Z.testbit (Transform.H x y z) n
    = xorb (xorb (Z.testbit x n) (Z.testbit y n)) (Z.testbit z n) /\
  Z.testbit (Transform.I x y z) n
    = xorb (Z.testbit y n) (Z.testbit x n || negb (Z.testbit z n)).
Proof.
  intros Hx Hy Hz Hn.
  pose proof (not32_word32 x Hx) as Hnx.
  pose proof (not32_word32 z Hz) as Hnz.
  unfold Transform.F, Transform.G, Transform.H, Transform.I.
  split.
  - split; [|split; [|split]];
      repeat first [ assumption | apply lor_word32 | apply land_word32
                   | apply lxor_word32 ].
  - rewrite !Z.lor_spec, !Z.land_spec, !Z.lxor_spec, !Z.lor_spec,
      !not32_spec by exact Hn.
    destruct (Z.testbit x n), (Z.testbit y n), (Z.testbit z n);
      repeat split; reflexivity.
Qed.

Lemma X3_round_functions_bitwise_witness :
  Z.testbit (Transform.F 4023233417 2562383102 271733878) 0 = false.
Proof.
  apply (X3_round_functions_bitwise 4023233417 2562383102 271733878 0);
    unfold word32; lia.
Defined.

(** X4.  For a 32-bit word [v] and a shift amount from 1 to 31, [rotl]
    is the rotation to the left: the result is a 32-bit word whose bit [n]
    is bit [n - s] modulo 32 of [v]. *)
Theorem X4_rotl_rotates (v s n : Z) :
  word32 v -> 1 <= s <= 31 -> 0 <= n < 32 ->
  word32 (Transform.rotl v s) /\
  Z.testbit (Transform.rotl v s) n = Z.testbit v ((n - s) mod 32).
Proof.
  intros Hv Hs Hn. unfold Transform.rotl, u32.
  rewrite (Z.mod_small (32 - s)) by lia.
  split.
  - apply word32_of_bits.
    + apply Z.lor_nonneg. split.
      * apply Z.mod_pos_bound. lia.
      * apply Z.shiftr_nonneg. unfold word32 in Hv. lia.
    + intros m Hm.
      rewrite Z.lor_spec, Z.mod_pow2_bits_high, Z.shiftr_spec by lia.
      apply (word32_high v); [exact Hv | lia].
  - rewrite Z.lor_spec, Z.mod_pow2_bits_low, Z.shiftl_spec, Z.shiftr_spec
      by lia.
    destruct (Z_lt_le_dec n s) as [Hlt|Hge].
    + rewrite Z.testbit_neg_r by lia.
      replace ((n - s) mod 32) with (n + (32 - s))
        by (apply Z.mod_unique with (q := -1); lia).
      reflexivity.
    + rewrite (word32_high v (n + (32 - s))) by (assumption || lia).
      rewrite Z.mod_small by lia. apply orb_false_r.
Qed.

Lemma X4_rotl_rotates_witness :
  Z.testbit (Transform.rotl 1 7) 7 = Z.testbit 1 ((7 - 7) mod 32).
Proof.
  apply (X4_rotl_rotates 1 7 7); unfold word32; lia.
Defined.

Lemma nodup_check (l : list Z) : nodup Z.eq_dec l = l -> NoDup l.
Proof. intros <-. apply NoDup_nodup. Qed.

(** X5.  The table lookups of [transform] stay inside the arrays: [K] has
    64 entries, all 32-bit words, and the message-word index [g] of every
    round is between 0 and 15; within each of the four groups of 16 rounds
    the indices are pairwise distinct, so each of the 16 message words is
    used exactly once per group. *)
Theorem X5_round_indices :
  length Transform.K = 64%nat /\
  Forall word32 Transform.K /\
  Forall (fun i => 0 <= Transform.round_g i < 16) round_indices /\
  Forall (fun k =>
            length (map Transform.round_g (round_group k)) = 16%nat /\
            NoDup (map Transform.round_g (round_group k)))
         [0; 1; 2; 3]%nat.
Proof.
  split; [reflexivity|]. split; [|split].
  - unfold Transform.K, word32. repeat constructor; lia.
  - apply Forall_forall. intros i Hi. unfold round_indices in Hi.
    apply in_map_iff in Hi. destruct Hi as (k & <- & Hk).
    apply in_seq in Hk. unfold Transform.round_g, u32.
    change 15 with (Z.ones 4). rewrite !Z.land_ones by lia.
    destruct (Z.of_nat k <? 16) eqn:E1; [apply Z.ltb_lt in E1; lia|].
    destruct (Z.of_nat k <? 32); [apply Z.mod_pos_bound; lia|].
    destruct (Z.of_nat k <? 48); apply Z.mod_pos_bound; lia.
  - repeat (apply Forall_cons;
            [split; [reflexivity | apply nodup_check; vm_compute; reflexivity]|]).
    apply Forall_nil.
Qed.

(** ** [update] and [finalize] on whole objects *)

Lemma memcpy_nil (dst : list byte) (off : Z) : memcpy dst off [] = dst.
Proof.
  unfold memcpy. cbn [app length]. rewrite Nat.add_0_r. apply firstn_skipn.
Qed.

(** X6.  An [update] with no bytes leaves the object as it is, [buffer_]
    included. *)
Theorem X6_update_empty (s : MD5) : wf s -> update s [] = s.
Proof.
  intros (Hb & Hl & Ht). unfold update. change (len []) with 0.
  rewrite Z.add_0_r. unfold u64. rewrite Z.mod_small by exact Ht.
  assert (set_total_len s (total_len_ s) = s) as -> by (destruct s; reflexivity).
  destruct (Z.eq_dec (buffer_len_ s) 0) as [Hz|Hnz].
  - rewrite fill_buffer_empty by exact Hz. reflexivity.
  - rewrite fill_buffer_partial by (change (len []) with 0; lia).
    rewrite memcpy_nil. change (len []) with 0. rewrite Z.add_0_r.
    cbn [length blocks_loop]. unfold store_remainder. cbn [len length Z.of_nat Z.ltb Z.compare].
    destruct s; reflexivity.
Qed.

Lemma X6_update_empty_witness :
  update (update (MD5_ctor raw0) [x61]) [] = update (MD5_ctor raw0) [x61].
Proof.
  apply (X6_update_empty (update (MD5_ctor raw0) [x61])).
  apply update_state_of, wf_ctor. reflexivity.
Defined.

Lemma compress_firstn (r : Transform.regs) (p : list byte) :
  compress r (firstn 64 p) = compress r p.
Proof.
  apply compress_ext. intros k Hk. rewrite nth_firstn.
  destruct (Nat.ltb_spec k 64); [reflexivity | lia].
Qed.

Lemma chunks_S (p : list byte) (n : nat) :
  chunks p (S n) = firstn 64 p :: chunks (skipn 64 p) n.
Proof.
  unfold chunks. cbn [seq map]. rewrite Nat.mul_0_r, skipn_0. f_equal.
  rewrite <- seq_shift, map_map. apply map_ext. intros k.
  rewrite skipn_skipn. do 2 f_equal. lia.
Qed.

Lemma absorb_chunks (p : list byte) :
  forall r,
    absorb r p
      = (fold_left compress (chunks p (length p / 64)) r,
         skipn (64 * (length p / 64)) p).
Proof.
  induction p as [p Hp|p Hp IH] using block_ind; intros r.
  - rewrite absorb_short by exact Hp.
    rewrite Nat.div_small by (unfold len in Hp; lia). reflexivity.
  - rewrite absorb_step, IH by exact Hp.
    unfold len in Hp. rewrite length_skipn.
    assert (length p / 64 = S ((length p - 64) / 64))%nat as ->.
    { replace (length p) with ((length p - 64) + 1 * 64)%nat at 1 by lia.
      rewrite Nat.div_add by lia. lia. }
    rewrite chunks_S. cbn [fold_left]. rewrite compress_firstn, skipn_skipn.
    do 2 f_equal. lia.
Qed.

(** X7.  [update] runs the compression function on the successive 64-byte
    blocks of the pending bytes followed by the input, in order, as many
    as are complete, and keeps exactly the bytes after the last complete
    block as the new pending bytes. *)
Theorem X7_update_blocks (s : MD5) (data : list byte) :
  wf s ->
  let all := pending s ++ data in
  let n := (length all / 64)%nat in
  accumulators (update s data)
    = fold_left compress (chunks all n) (accumulators s) /\
  pending (update s data) = skipn (64 * n) all /\
  buffer_len_ (update s data) = len all - 64 * Z.of_nat n.
Proof.
  intros Hwf all n.
  destruct (update_state_of s data Hwf) as (Hst & Hwf').
  unfold absorb_state in Hst. cbn [state_of hs_accumulators hs_pending hs_total_length] in Hst.
  fold all in Hst. rewrite absorb_chunks in Hst. fold n in Hst.
  pose proof (f_equal hs_accumulators Hst) as Ha.
  pose proof (f_equal hs_pending Hst) as Hp.
  cbn [state_of hs_accumulators hs_pending] in Ha, Hp.
  split; [exact Ha|]. split; [exact Hp|].
  rewrite <- (len_pending _ Hwf'), Hp.
  pose proof (Nat.div_mod_eq (length all) 64) as Hdm. fold n in Hdm.
  rewrite len_skipn by lia. lia.
Qed.

Lemma X7_update_blocks_witness :
  pending (update (MD5_ctor raw0) (repeat x61 70))
    = skipn (64 * (length (pending (MD5_ctor raw0) ++ repeat x61 70) / 64))
            (pending (MD5_ctor raw0) ++ repeat x61 70).
Proof.
  apply (X7_update_blocks (MD5_ctor raw0) (repeat x61 70)).
  apply wf_ctor. reflexivity.
Defined.

(** X8.  From any well-formed state, two [update] calls in a row leave
    the same hash state as one [update] with the concatenated input, and
    [finalize] returns the same digest. *)
Theorem X8_update_concat (s : MD5) (x y : list byte) :
  wf s ->
  state_of (update (update s x) y) = state_of (update s (x ++ y)) /\
  fst (finalize (update (update s x) y))
    = fst (finalize (update s (x ++ y))).
Proof.
  intros Hwf.
  destruct (update_state_of s x Hwf) as (Hx & Hwfx).
  destruct (update_state_of _ y Hwfx) as (Hxy & Hwfxy).
  destruct (update_state_of s (x ++ y) Hwf) as (Hc & Hwfc).
  assert (state_of (update (update s x) y) = state_of (update s (x ++ y)))
    as Heq by (rewrite Hxy, Hx, Hc; apply absorb_state_app).
  split; [exact Heq|].
  destruct (finalize_state_of _ Hwfxy) as (-> & _).
  destruct (finalize_state_of _ Hwfc) as (-> & _).
  rewrite Heq. reflexivity.
Qed.

Lemma X8_update_concat_witness :
  state_of (update (update (update (MD5_ctor raw0) [x61]) (repeat x62 63))
                   [x63])
    = state_of (update (update (MD5_ctor raw0) [x61]) (repeat x62 63 ++ [x63])).
Proof.
  apply (X8_update_concat (update (MD5_ctor raw0) [x61])).
  apply update_state_of, wf_ctor. reflexivity.
Defined.

(** ** Invariants of the object *)

#[local] Transparent transform compress.

Lemma compress_regs32 (r : Transform.regs) (block : list byte) :
  regs32 (compress r block).
Proof.
  destruct r as [[[a b] c] d]. unfold compress, transform, accumulators.
  destruct (fold_left _ _ _) as [[[A B] C] D].
  cbn [a_ b_ c_ d_ regs32]. unfold word32, u32.
  repeat split; apply Z.mod_pos_bound; lia.
Qed.

#[local] Opaque transform compress.

Lemma absorb_regs32 (p : list byte) :
  forall r, regs32 r -> regs32 (fst (absorb r p)).
Proof.
  induction p as [p Hp|p Hp IH] using block_ind; intros r Hr.
  - rewrite absorb_short by exact Hp. exact Hr.
  - rewrite absorb_step by exact Hp. apply IH, compress_regs32.
Qed.

Lemma accumulators_update (s : MD5) (data : list byte) :
  wf s ->
  accumulators (update s data)
    = fst (absorb (accumulators s) (pending s ++ data)).
Proof.
  intros Hwf. destruct (update_state_of s data Hwf) as (Hst & _).
  apply (f_equal hs_accumulators) in Hst. unfold absorb_state in Hst.
  cbn [state_of hs_accumulators hs_pending] in Hst.
  destruct (absorb _ _). exact Hst.
Qed.

Lemma mod_64_u64 (x : Z) : u64 x mod 64 = x mod 64.
Proof.
  unfold u64. apply Z.mod_mod_divide. exists (2 ^ 58). reflexivity.
Qed.

(** X9.  In every state reached from a freshly constructed object by
    [reset], [update] and [finalize] calls, the pending length is the total
    length modulo 64. *)
Theorem X9_pending_is_total_mod_64 (raw : MD5) (cs : list call) :
  storage raw ->
  buffer_len_ (run (MD5_ctor raw) cs)
    = total_len_ (run (MD5_ctor raw) cs) mod 64.
Proof.
  intros Hraw. pose proof (wf_ctor raw Hraw) as Hwf.
  assert (buffer_len_ (MD5_ctor raw) = total_len_ (MD5_ctor raw) mod 64)
    as Hinv by reflexivity.
  revert Hwf Hinv. generalize (MD5_ctor raw). unfold run.
  induction cs as [|c cs IH]; intros s Hwf Hinv; cbn [fold_left];
    [exact Hinv|].
  apply IH; [apply wf_step, Hwf|].
  destruct c; cbn [step].
  - reflexivity.
  - rewrite buffer_len_update, total_len_update, mod_64_u64, Hinv
      by exact Hwf.
    apply Zplus_mod_idemp_l.
  - rewrite finalize_eq. reflexivity.
Qed.

Lemma X9_pending_is_total_mod_64_witness :
  buffer_len_ (run (MD5_ctor raw0) [Update (repeat x61 70); Update [x62]])
    = total_len_ (run (MD5_ctor raw0) [Update (repeat x61 70); Update [x62]])
      mod 64.
Proof.
  apply (X9_pending_is_total_mod_64 raw0). reflexivity.
Defined.

(** X10.  In every state reached from a freshly constructed object the
    four accumulators are 32-bit words. *)
Theorem X10_accumulators_32_bit (raw : MD5) (cs : list call) :
  storage raw ->
  regs32 (accumulators (run (MD5_ctor raw) cs)).
Proof.
  intros Hraw. pose proof (wf_ctor raw Hraw) as Hwf.
  assert (regs32 (accumulators (MD5_ctor raw))) as Hinv
    by (cbn; unfold word32; lia).
  revert Hwf Hinv. generalize (MD5_ctor raw). unfold run.
  induction cs as [|c cs IH]; intros s Hwf Hinv; cbn [fold_left];
    [exact Hinv|].
  apply IH; [apply wf_step, Hwf|].
  destruct c; cbn [step].
  - cbn; unfold word32; lia.
  - rewrite accumulators_update by exact Hwf. apply absorb_regs32, Hinv.
  - rewrite finalize_eq. cbn; unfold word32; lia.
Qed.

Lemma X10_accumulators_32_bit_witness :
  regs32 (accumulators (run (MD5_ctor raw0) [Update (repeat x61 70)])).
Proof.
  apply (X10_accumulators_32_bit raw0). reflexivity.
Defined.

(** ** The digest *)

Lemma read_le32_skip4 (b0 b1 b2 b3 : byte) (l : list byte) (off : nat) :
  read_le32 (b0 :: b1 :: b2 :: b3 :: l) (4 + off) = read_le32 l off.
Proof. reflexivity. Qed.

Lemma read_le32_digest_bytes (r : Transform.regs) :
  regs32 r ->
  let d := digest_bytes r in
  (read_le32 d 0, read_le32 d 4, read_le32 d 8, read_le32 d 12) = r.
Proof.
  destruct r as [[[a b] c] e]. intros (Ha & Hb & Hc & He). cbv zeta.
  unfold digest_bytes.
  rewrite (read_le32_write_le32 a) by exact Ha.
  change (write_le32 a ++ ?l) with
    (byte_of_Z (Z.land a 255) :: byte_of_Z (Z.land (Z.shiftr a 8) 255)
       :: byte_of_Z (Z.land (Z.shiftr a 16) 255)
       :: byte_of_Z (Z.land (Z.shiftr a 24) 255) :: l).
  rewrite (read_le32_skip4 _ _ _ _ _ 0), (read_le32_skip4 _ _ _ _ _ 4),
    (read_le32_skip4 _ _ _ _ _ 8).
  rewrite (read_le32_write_le32 b) by exact Hb.
  change (write_le32 b ++ ?l) with
    (byte_of_Z (Z.land b 255) :: byte_of_Z (Z.land (Z.shiftr b 8) 255)
       :: byte_of_Z (Z.land (Z.shiftr b 16) 255)
       :: byte_of_Z (Z.land (Z.shiftr b 24) 255) :: l).
  rewrite (read_le32_skip4 _ _ _ _ _ 0), (read_le32_skip4 _ _ _ _ _ 4).
  rewrite (read_le32_write_le32 c) by exact Hc.
  change (write_le32 c ++ ?l) with
    (byte_of_Z (Z.land c 255) :: byte_of_Z (Z.land (Z.shiftr c 8) 255)
       :: byte_of_Z (Z.land (Z.shiftr c 16) 255)
       :: byte_of_Z (Z.land (Z.shiftr c 24) 255) :: l).
  rewrite (read_le32_skip4 _ _ _ _ _ 0).
  rewrite <- (app_nil_r (write_le32 e)).
  rewrite (read_le32_write_le32 e) by exact He.
  reflexivity.
Qed.

(** X11.  The digest [finalize] returns is 16 bytes long and is the
    little-endian encoding of the four accumulators as they stand after
    the padding has been absorbed: read back with [read_le32] at offsets
    0, 4, 8 and 12 it gives [a_], [b_], [c_], [d_] in that order. *)
Theorem X11_digest_encodes_accumulators (s : MD5) :
  wf s ->
  let d := fst (finalize s) in
  let s1 := update s (padding_bytes (buffer_len_ s)
                                    (u64 (total_len_ s * 8))) in
  length d = 16%nat /\
  (read_le32 d 0, read_le32 d 4, read_le32 d 8, read_le32 d 12)
    = (a_ s1, b_ s1, c_ s1, d_ s1).
Proof.
  intros Hwf d s1. subst d. rewrite finalize_eq. cbv zeta. cbn [fst].
  fold s1.
  change (write_le32 (a_ s1) ++ write_le32 (b_ s1)
            ++ write_le32 (c_ s1) ++ write_le32 (d_ s1))
    with (digest_bytes (accumulators s1)).
  split.
  - unfold digest_bytes, accumulators.
    rewrite !length_app, !length_write_le32. reflexivity.
  - apply read_le32_digest_bytes.
    change (regs32 (accumulators s1)).
    subst s1. rewrite accumulators_update by exact Hwf.
    set (pad := padding_bytes _ _).
    assert (64 <= len (pending s ++ pad)) as Hlen.
    { rewrite len_app, (len_pending s Hwf). subst pad.
      destruct (build_padding_spec s (u64 (total_len_ s * 8)))
        as (_ & _ & ->).
      pose proof (need_zeroes_eq (buffer_len_ s)) as Hnz.
      destruct Hwf as (_ & Hl & _).
      rewrite Z.mod_small in Hnz by exact Hl.
      destruct (buffer_len_ s <=? 56); lia. }
    rewrite absorb_step by exact Hlen.
    apply absorb_regs32, compress_regs32.
Qed.

Lemma X11_digest_encodes_accumulators_witness :
  length (fst (finalize (MD5_ctor raw0))) = 16%nat.
Proof.
  apply (X11_digest_encodes_accumulators (MD5_ctor raw0)).
  apply wf_ctor. reflexivity.
Defined.

(** X12.  The one-shot digest does not depend on the bytes the local
    object happens to hold in its uninitialised [buffer_]: it is a function
    of the input alone. *)
Theorem X12_digest_ignores_storage (raw raw' : MD5) (data : list byte) :
  storage raw -> storage raw' -> digest raw data = digest raw' data.
Proof.
  intros Hraw Hraw'. rewrite !digest_eq by assumption. reflexivity.
Qed.

Lemma X12_digest_ignores_storage_witness :
  digest raw0 [x61]
    = digest (mkMD5 1 2 3 4 5 (repeat xff 64) 6) [x61].
Proof.
  apply (X12_digest_ignores_storage raw0); reflexivity.
Defined.

(** X13.  Two objects with the same hash state (accumulators, total
    length, pending bytes) cannot be told apart: any sequence of [reset],
    [update] and [finalize] calls returns the same digests on both and
    leaves them in the same hash state, whatever stale bytes their
    [buffer_] arrays hold. *)
Theorem X13_stale_bytes_unobservable (s s' : MD5) (cs : list call) :
  wf s -> wf s' -> state_of s = state_of s' ->
  outputs s cs = outputs s' cs /\
  state_of (run s cs) = state_of (run s' cs).
Proof.
  intros Hwf Hwf' Heq.
  split; [apply outputs_state_of | apply run_state_of]; assumption.
Qed.

Lemma X13_stale_bytes_unobservable_witness :
  outputs (fold_left update [[x61]; repeat x61 63] (MD5_ctor raw0))
          [Update [x62]; Finalize]
    = outputs (update (MD5_ctor raw0) (repeat x61 64))
              [Update [x62]; Finalize].
Proof.
  apply (X13_stale_bytes_unobservable
           (fold_left update [[x61]; repeat x61 63] (MD5_ctor raw0))
           (update (MD5_ctor raw0) (repeat x61 64))).
  - apply update_pieces, wf_ctor. reflexivity.
  - apply update_state_of, wf_ctor. reflexivity.
  - vm_compute. reflexivity.
Defined.

(** X14.  [hex] is injective on 16-byte digests: two digests with the
    same rendering are equal. *)
Theorem X14_hex_injective (d d' : list byte) :
  length d = 16%nat -> length d' = 16%nat -> hex d = hex d' -> d = d'.
Proof.
  intros Hd Hd' Heq.
  apply (f_equal list_ascii_of_string) in Heq.
  rewrite !hex_of_16 in Heq by assumption.
  apply (f_equal unhex_chars) in Heq.
  destruct (unhex_flat_map d) as (Hu & _).
  destruct (unhex_flat_map d') as (Hu' & _).
  rewrite Hu, Hu' in Heq. congruence.
Qed.

Lemma X14_hex_injective_witness :
  digest raw0 [] = digest raw0 [].
Proof.
  apply (X14_hex_injective (digest raw0 []) (digest raw0 []));
    reflexivity.
Defined.

(** X15.  The one-shot digest is the compression function iterated, from
    the four initial constants, over the complete 64-byte blocks of the
    input followed by the padding built for it (pending length
    [len data mod 64], bit length [len data * 8] modulo 2^64), written out
    little-endian. *)
Theorem X15_digest_iterated_compression (raw : MD5) (data : list byte) :
  storage raw ->
  let msg := data ++ padding_bytes (len data mod 64) (u64 (len data * 8)) in
  digest raw data
    = digest_bytes
        (fold_left compress (chunks msg (length msg / 64))
                   (1732584193, 4023233417, 2562383102, 271733878)).
Proof.
  intros Hraw msg. rewrite digest_eq by exact Hraw.
  unfold final_digest.
  assert (hs_pending_length (absorb_state initial_state data)
          = len data mod 64) as Hpl.
  { unfold absorb_state, initial_state.
    cbn [hs_accumulators hs_pending hs_total_length app].
    pose proof (absorb_rest_len data
                  (1732584193, 4023233417, 2562383102, 271733878)) as Hr.
    destruct (absorb _ data). exact Hr. }
  assert (hs_total_length (absorb_state initial_state data)
          = u64 (len data)) as Htl.
  { unfold absorb_state, initial_state.
    cbn [hs_accumulators hs_pending hs_total_length app].
    destruct (absorb _ data). reflexivity. }
  rewrite Hpl, Htl.
  assert (u64 (u64 (len data) * 8) = u64 (len data * 8)) as ->
    by (unfold u64; apply Z.mul_mod_idemp_l; lia).
  rewrite absorb_state_app. fold msg.
  unfold absorb_state, initial_state.
  cbn [hs_accumulators hs_pending hs_total_length app].
  rewrite absorb_chunks. reflexivity.
Qed.

Lemma X15_digest_iterated_compression_witness :
  digest raw0 [x61; x62; x63]
    = digest_bytes
        (fold_left compress
           (chunks ([x61; x62; x63] ++ padding_bytes 3 24) 1)
           (1732584193, 4023233417, 2562383102, 271733878)).
Proof.
  apply (X15_digest_iterated_compression raw0 [x61; x62; x63]).
  reflexivity.
Defined.
